(** * scan-to-sticker: serial line framing, identifier extraction and label
      composition of [main.py], as a shallow embedding.

    The script reads a scanner on a serial port, cuts the byte stream into
    lines, looks for [/m/<digits>/] in each line and, for each identifier
    found, composes a 543 x 248 label (texts, three logos, a Code 128
    barcode) that it saves as a PNG.

    Layout of this file:
    - [Py]      the pieces of the Python runtime the script relies on
                (exceptions, [bytes.decode], [str.strip], [bytearray.endswith],
                [strftime], float division);
    - [Re]      a backtracking matcher for the fragment of [re] the script's
                pattern uses, and [re.search];
    - [Pil]     images as the script sees them: mode, size, and the drawing
                operations applied;
    - [Sticker] the script itself: constants, [load_logo], [make_barcode],
                [compose_label], [autodetect_port], [main];
    - [Spec]    the notions the specification is worded with (splitting a
                stream on the terminator, candidate substrings);
    - [Aux]     functions used by the proofs only, and sample worlds;
    - the properties: port selection, label composition, the framing
      buffer, decoding, the pattern, and the run of one record; then more
      on the graphics (logos, barcode, layout), on what stops the loop, on
      what a run saves, on file names, and on several records in one
      read. *)

From Stdlib Require Import String Ascii.
From Stdlib Require Import ZArith List Bool Lia.
From Stdlib Require Import Floats.SpecFloat.
Import ListNotations.
Local Open Scope Z_scope.

(* ------------------------------------------------------------------------- *)
(** * The Python runtime, as far as [main.py] uses it *)
(* ------------------------------------------------------------------------- *)
Module Py.

(** A [bytes]/[bytearray] value: its bytes, each in [0, 255]. *)
Definition bytes := list Z.

(** A [str] value: its code points. *)
Definition str := list Z.

(** A literal of the source, given in ASCII. *)
Fixpoint lit (s : string) : str :=
  match s with
  | EmptyString => []
  | String a s' => Z.of_nat (nat_of_ascii a) :: lit s'
  end.

(** ** Exceptions *)

Inductive exn_class :=
| KeyboardInterrupt        (* derives from BaseException only *)
| RuntimeError
| OSError                  (* FileNotFoundError, SerialException, ... *)
| ValueError
| ZeroDivisionError
| OverflowError
| LibraryError.            (* any other subclass of Exception *)

Record exn := mk_exn { exn_cls : exn_class; exn_msg : str }.

(** [isinstance(e, Exception)]: what [except Exception] catches. *)
Definition is_Exception (e : exn) : bool :=
  match exn_cls e with
  | KeyboardInterrupt => false
  | _ => true
  end.

Inductive result (A : Type) :=
| Ok (a : A)
| Raise (e : exn).
Arguments Ok {A} a.
Arguments Raise {A} e.

Definition bind {A B} (r : result A) (k : A -> result B) : result B :=
  match r with
  | Ok a => k a
  | Raise e => Raise e
  end.

(** ** [bytes.decode(encoding="utf-8", errors=...)] *)

Inductive error_handler := Strict | Ignore | Replace.

(** What the UTF-8 decoder finds at one position: a code point, or a range
    of [n] bytes it cannot decode (handed to the error handler). *)
Inductive utf8_item :=
| Decoded (cp : Z)
| Malformed (n : nat).

Definition is_continuation (b : Z) : bool := (0x80 <=? b) && (b <? 0xC0).

Definition low6 (b : Z) : Z := Z.land b 0x3F.

(** CPython's decoder: one lead byte at a time; an ill-formed sequence is
    reported up to (not including) the first byte that cannot continue it,
    and a sequence cut by the end of the input is reported whole. *)
Fixpoint utf8_scan (bs : bytes) : list utf8_item :=
  match bs with
  | [] => []
  | ch :: s1 =>
    if ch <? 0x80 then Decoded ch :: utf8_scan s1
    else if ch <? 0xC2 then Malformed 1 :: utf8_scan s1
    else if ch <? 0xE0 then
      match s1 with
      | [] => [Malformed 1]
      | ch2 :: s2 =>
        if is_continuation ch2
        then Decoded (Z.lor (Z.shiftl (Z.land ch 0x1F) 6) (low6 ch2))
               :: utf8_scan s2
        else Malformed 1 :: utf8_scan s1
      end
    else if ch <? 0xF0 then
      match s1 with
      | [] => [Malformed 1]
      | ch2 :: s2 =>
        if negb (is_continuation ch2)
           || (if ch2 <? 0xA0 then ch =? 0xE0 else ch =? 0xED)
        then Malformed 1 :: utf8_scan s1
        else
          match s2 with
          | [] => [Malformed 2]
          | ch3 :: s3 =>
            if is_continuation ch3
            then Decoded (Z.lor (Z.shiftl (Z.land ch 0x0F) 12)
                            (Z.lor (Z.shiftl (low6 ch2) 6) (low6 ch3)))
                   :: utf8_scan s3
            else Malformed 2 :: utf8_scan s2
          end
      end
    else if ch <? 0xF5 then
      match s1 with
      | [] => [Malformed 1]
      | ch2 :: s2 =>
        if negb (is_continuation ch2)
           || (if ch2 <? 0x90 then ch =? 0xF0 else ch =? 0xF4)
        then Malformed 1 :: utf8_scan s1
        else
          match s2 with
          | [] => [Malformed 2]
          | ch3 :: s3 =>
            if negb (is_continuation ch3)
            then Malformed 2 :: utf8_scan s2
            else
              match s3 with
              | [] => [Malformed 3]
              | ch4 :: s4 =>
                if is_continuation ch4
                then Decoded (Z.lor (Z.shiftl (Z.land ch 0x07) 18)
                                (Z.lor (Z.shiftl (low6 ch2) 12)
                                   (Z.lor (Z.shiftl (low6 ch3) 6) (low6 ch4))))
                       :: utf8_scan s4
                else Malformed 3 :: utf8_scan s3
              end
          end
      end
    else Malformed 1 :: utf8_scan s1
  end.

Definition is_malformed (i : utf8_item) : bool :=
  match i with Malformed _ => true | Decoded _ => false end.

(** The three handlers: [strict] raises [UnicodeDecodeError] (a
    [ValueError]) at the first ill-formed range, [ignore] leaves the range
    out, [replace] puts U+FFFD in its place. *)
Definition handle (errors : error_handler) (i : utf8_item) : str :=
  match i, errors with
  | Decoded cp, _ => [cp]
  | Malformed _, Replace => [0xFFFD]
  | Malformed _, _ => []
  end.

Definition decode (errors : error_handler) (bs : bytes) : result str :=
  let items := utf8_scan bs in
  match errors with
  | Strict =>
    if existsb is_malformed items
    then Raise (mk_exn ValueError (lit "'utf-8' codec can't decode"))
    else Ok (flat_map (handle Strict) items)
  | _ => Ok (flat_map (handle errors) items)
  end.

(** ** [str.isspace], [str.strip] *)

Definition in_range (lo hi c : Z) : bool := (lo <=? c) && (c <=? hi).

(** Code points with the Unicode White_Space property or bidirectional
    type WS, B or S, as [Py_UNICODE_ISSPACE] tabulates them. *)
Definition isspace (c : Z) : bool :=
  in_range 0x09 0x0D c || in_range 0x1C 0x20 c
  || (c =? 0x85) || (c =? 0xA0) || (c =? 0x1680)
  || in_range 0x2000 0x200A c || (c =? 0x2028) || (c =? 0x2029)
  || (c =? 0x202F) || (c =? 0x205F) || (c =? 0x3000).

Fixpoint lstrip (s : str) : str :=
  match s with
  | [] => []
  | c :: s' => if isspace c then lstrip s' else s
  end.

Definition rstrip (s : str) : str := rev (lstrip (rev s)).

Definition strip (s : str) : str := rstrip (lstrip s).

(** ** [bytearray.endswith] *)

Fixpoint startswith (s prefix : bytes) : bool :=
  match prefix, s with
  | [], _ => true
  | _ :: _, [] => false
  | p :: prefix', b :: s' => (b =? p) && startswith s' prefix'
  end.

Definition endswith (s suffix : bytes) : bool :=
  startswith (rev s) (rev suffix).

(** ** Decimal digits: [str.isdecimal], the class [\d] of [re] on [str] *)

(** The zero of each run of ten code points of general category Nd
    (Unicode 15). *)
Definition decimal_zeros : list Z :=
  [ 0x0030; 0x0660; 0x06F0; 0x07C0; 0x0966; 0x09E6; 0x0A66; 0x0AE6; 0x0B66;
    0x0BE6; 0x0C66; 0x0CE6; 0x0D66; 0x0DE6; 0x0E50; 0x0ED0; 0x0F20; 0x1040;
    0x1090; 0x17E0; 0x1810; 0x1946; 0x19D0; 0x1A80; 0x1A90; 0x1B50; 0x1BB0;
    0x1C40; 0x1C50; 0xA620; 0xA8D0; 0xA900; 0xA9D0; 0xA9F0; 0xAA50; 0xABF0;
    0xFF10; 0x104A0; 0x10D30; 0x11066; 0x110F0; 0x11136; 0x111D0; 0x112F0;
    0x11450; 0x114D0; 0x11650; 0x116C0; 0x11730; 0x118E0; 0x11950; 0x11C50;
    0x11D50; 0x11DA0; 0x11F50; 0x16A60; 0x16AC0; 0x16B50; 0x1D7CE; 0x1D7D8;
    0x1D7E2; 0x1D7EC; 0x1D7F6; 0x1E140; 0x1E2F0; 0x1E4F0; 0x1E950; 0x1FBF0 ].

Definition isdecimal (c : Z) : bool :=
  existsb (fun z => in_range z (z + 9) c) decimal_zeros.

(** The ASCII digits [0-9] only. *)
Definition is_ascii_digit (c : Z) : bool := in_range 0x30 0x39 c.

Definition isascii (s : str) : bool := forallb (fun c => in_range 0 0x7F c) s.

(** ** [int / int], [int * float], [int(float)] on binary64 *)

Definition float := spec_float.
Definition prec : Z := 53.
Definition emax : Z := 1024.

Definition float_of_int (n : Z) : float := binary_normalize prec emax n 0 false.

Definition truediv (a b : Z) : result float :=
  if b =? 0
  then Raise (mk_exn ZeroDivisionError (lit "division by zero"))
  else Ok (SFdiv prec emax (float_of_int a) (float_of_int b)).

Definition mul_int_float (n : Z) (x : float) : float :=
  SFmul prec emax (float_of_int n) x.

(** [int(x)]: truncation towards zero. *)
Definition int_of_float (x : float) : result Z :=
  match x with
  | S754_zero _ => Ok 0
  | S754_finite s m e =>
    let a := if 0 <=? e then Zpos m * 2 ^ e else Zpos m / 2 ^ (- e) in
    Ok (if s then - a else a)
  | S754_infinity _ =>
    Raise (mk_exn OverflowError
                  (lit "cannot convert float infinity to integer"))
  | S754_nan =>
    Raise (mk_exn ValueError (lit "cannot convert float NaN to integer"))
  end.

(** ** [datetime.strftime("%Y%m%d_%H%M%S")] *)

Record datetime := mk_datetime {
  year : Z; month : Z; day : Z; hour : Z; minute : Z; second : Z
}.

Definition digit (n : Z) : Z := 0x30 + n mod 10.

Definition pad2 (n : Z) : str := [digit (n / 10); digit n].

Definition pad4 (n : Z) : str :=
  [digit (n / 1000); digit (n / 100); digit (n / 10); digit n].

(** [%Y]: the year in decimal, not padded (the years of a [datetime]
    are 1 to 9999; from 1000 on there are four digits). *)
Definition year_digits (y : Z) : str :=
  if y <? 10 then [digit y]
  else if y <? 100 then pad2 y
  else if y <? 1000 then [digit (y / 100); digit (y / 10); digit y]
  else pad4 y.

Definition strftime_compact (t : datetime) : str :=
  year_digits (year t) ++ pad2 (month t) ++ pad2 (day t) ++ lit "_"
  ++ pad2 (hour t) ++ pad2 (minute t) ++ pad2 (second t).

End Py.

(* ------------------------------------------------------------------------- *)
(** * The fragment of [re] used by the script *)
(* ------------------------------------------------------------------------- *)
Module Re.
Import Py.

Inductive regex :=
| Lit (c : Z)                          (* a literal character *)
| Digit                                (* \d *)
| Seq (r1 r2 : regex)                  (* r1 r2 *)
| Repeat (r : regex) (lo hi : nat)     (* r{lo,hi}, greedy *)
| Group (r : regex).                   (* ( r ) *)

(** Backtracking matcher in continuation-passing style. [k] receives the
    text left to match and the groups closed so far; [None] makes the
    matcher try its next alternative. *)
Definition cont := str -> list str -> option (list str).

Fixpoint rmatch (r : regex) (s : str) (caps : list str) (k : cont)
  : option (list str) :=
  match r with
  | Lit c =>
    match s with
    | x :: s' => if x =? c then k s' caps else None
    | [] => None
    end
  | Digit =>
    match s with
    | x :: s' => if isdecimal x then k s' caps else None
    | [] => None
    end
  | Seq r1 r2 => rmatch r1 s caps (fun s' caps' => rmatch r2 s' caps' k)
  | Repeat r0 lo hi =>
    (fix rep (lo hi : nat) (s : str) (caps : list str) : option (list str) :=
       match hi with
       | O => if Nat.eqb lo 0 then k s caps else None
       | S hi' =>
         match rmatch r0 s caps (rep (Nat.pred lo) hi') with
         | Some res => Some res
         | None => if Nat.eqb lo 0 then k s caps else None
         end
       end) lo hi s caps
  | Group r0 =>
    rmatch r0 s caps
      (fun s' caps' =>
         k s' (caps' ++ [firstn (length s - length s') s]))
  end.

Record match_obj := mk_match { m_start : nat; m_groups : list str }.

(** [m.group(i)] for [i >= 1]. *)
Definition group (m : match_obj) (i : nat) : str :=
  nth (Nat.pred i) (m_groups m) [].

(** [re.match] at the head of [s]. *)
Definition match_here (r : regex) (s : str) : option (list str) :=
  rmatch r s [] (fun _ caps => Some caps).

(** [re.search]: the first start position, from the left, where the
    pattern matches. *)
Fixpoint search_from (r : regex) (i : nat) (s : str) : option match_obj :=
  match match_here r s with
  | Some caps => Some (mk_match i caps)
  | None =>
    match s with
    | [] => None
    | _ :: s' => search_from r (S i) s'
    end
  end.

Definition search (r : regex) (s : str) : option match_obj :=
  search_from r 0 s.

End Re.

(* ------------------------------------------------------------------------- *)
(** * Pillow images, as the script sees them *)
(* ------------------------------------------------------------------------- *)
Module Pil.
Import Py.

Inductive mode := Bilevel (* "1" *) | RGB | RGBA.

Inductive color := Named (name : str) | Level (v : Z).

Record font := mk_font { font_file : str; font_size : Z }.

(** An image: its mode, its size in pixels, and how its pixels were made
    (the pixels themselves are not computed). *)
Inductive image :=
| mk_image (m : mode) (w h : Z) (made : list op)
with op :=
| New (fill : color)
| Opened (path : str)
| Symbol (kind code : str) (options : list (str * str))
| Convert (m : mode)
| Resize (w h : Z)
| Text (x y : Z) (text : str) (f : font) (fill : color)
| Paste (src : image) (x y : Z) (masked : bool).

Definition img_mode (i : image) : mode := let '(mk_image m _ _ _) := i in m.
Definition width (i : image) : Z := let '(mk_image _ w _ _) := i in w.
Definition height (i : image) : Z := let '(mk_image _ _ h _) := i in h.
Definition made (i : image) : list op := let '(mk_image _ _ _ l) := i in l.

Definition size (i : image) : Z * Z := (width i, height i).

(** [Image.new(mode, size, color)] *)
Definition Image_new (m : mode) (sz : Z * Z) (c : color) : result image :=
  let '(w, h) := sz in
  if (w <? 0) || (h <? 0)
  then Raise (mk_exn ValueError (lit "Width and height must be >= 0"))
  else Ok (mk_image m w h [New c]).

(** [img.convert(mode)] *)
Definition convert (i : image) (m : mode) : image :=
  mk_image m (width i) (height i) (made i ++ [Convert m]).

(** [img.resize(size, Image.LANCZOS)] *)
Definition resize (i : image) (sz : Z * Z) : result image :=
  let '(w, h) := sz in
  if (w <? 1) || (h <? 1)
  then Raise (mk_exn ValueError (lit "height and width must be > 0"))
  else Ok (mk_image (img_mode i) w h (made i ++ [Resize w h])).

(** [dst.paste(src, box)] and [dst.paste(src, box, src)]: [dst] is changed
    in place and keeps its size; what falls outside is clipped. *)
Definition paste (dst src : image) (box : Z * Z) (masked : bool) : image :=
  mk_image (img_mode dst) (width dst) (height dst)
           (made dst ++ [Paste src (fst box) (snd box) masked]).

(** [ImageDraw.Draw(dst).text(xy, text, font=f, fill=c)] *)
Definition draw_text (dst : image) (xy : Z * Z) (text : str) (f : font)
           (c : color) : image :=
  mk_image (img_mode dst) (width dst) (height dst)
           (made dst ++ [Text (fst xy) (snd xy) text f c]).

End Pil.

(* ------------------------------------------------------------------------- *)
(** * The script *)
(* ------------------------------------------------------------------------- *)
Module Sticker.
Import Py Re Pil.

(** What the script finds outside itself. *)
Record world := mk_world {
  (* [Image.open(path)] *)
  image_open : str -> result image;
  (* [treepoem.generate_barcode(kind, code, options=...)] *)
  generate_barcode : str -> str -> list (str * str) -> result image;
  (* [font.getbbox(text)]: left, top, right, bottom *)
  getbbox : font -> str -> Z * Z * Z * Z;
  (* the devices of [serial.tools.list_ports.comports()] *)
  comports : list str;
  (* [serial.Serial(port, ...)]: the exception it raises, if any *)
  serial_open : str -> option exn;
  (* [datetime.datetime.now()], at its n-th call *)
  now : nat -> datetime;
  (* [img.save(OUT_DIR / name, dpi=(300, 300))], at its n-th call: the
     exception it raises, if any (directory gone, disk full, ...) *)
  image_save : nat -> str -> image -> option exn
}.

(** What one call of [ser.read] does. *)
Inductive read_event :=
| Data (chunk : bytes)       (* possibly empty, on time-out *)
| ReadRaises (e : exn).      (* Ctrl-C, or the port failing *)

(** ** Constants *)

Definition BAUDRATE : Z := 115200.
Definition END_BYTES : bytes := [0x0D].

Definition PREFIX : str := lit "UK".
Definition LABEL_W : Z := 543.
Definition LABEL_H : Z := 248.
Definition MARGIN : Z := 16.

Definition TEXT1 : str := lit "UBIQOD KEY".
Definition TEXT2 : str := lit "P/N : SKPF000252".

Definition FONT_BIG : font := mk_font (lit "arialbd.ttf") 30.
Definition FONT_MED : font := mk_font (lit "arial.ttf") 26.
Definition FONT_BAR : font := mk_font (lit "arial.ttf") 24.

(** [str(BAR_SCALE)], [str(BAR_HEIGHT)], [str(BAR_WIDTH)], [str(QUIET_ZONE)] *)
Definition BAR_OPTIONS : list (str * str) :=
  [ (lit "scale", lit "3"); (lit "height", lit "0.7");
    (lit "width", lit "2.2"); (lit "quietzone", lit "2") ].

Definition OUT_DIR : str := lit "barcodes".

Definition DEBUG : Z := 10.
Definition INFO : Z := 20.
Definition ERROR : Z := 40.
Definition LOG_LEVEL : Z := INFO.

(** [r"/m/(\d{6,12})/"] *)
Definition UID_PATTERN : regex :=
  Seq (Lit 0x2F) (Seq (Lit 0x6D) (Seq (Lit 0x2F)
    (Seq (Group (Repeat Digit 6 12)) (Lit 0x2F)))).

#[local] Notation "x <- c ;; k" := (bind c (fun x => k))
  (at level 61, c at next level, right associativity).

Section Script.

(** The override [PORT] of the configuration ([None] in the source) and
    the world the script runs in. *)
Variable PORT : option str.
Variable w : world.

(** ** Graphics *)

Definition load_logo (path : str) (width_px : Z) : result image :=
  opened <- image_open w path ;;
  let img := convert opened RGBA in
  if negb (width img =? width_px) then
    ratio <- truediv width_px (width img) ;;
    h <- int_of_float (mul_int_float (height img) ratio) ;;
    resize img (width_px, h)
  else Ok img.

Definition make_barcode (code : str) : result image :=
  generated <- generate_barcode w (lit "code128") code BAR_OPTIONS ;;
  let symbol := convert generated Bilevel in
  let '(_, _, w_txt, h_txt) := getbbox w FONT_BAR code in
  canvas <- Image_new Bilevel (width symbol, height symbol + h_txt + 8)
                      (Level 1) ;;
  let canvas := paste canvas symbol (0, 0) false in
  let canvas :=
    draw_text canvas ((width symbol - w_txt) / 2, height symbol + 4)
              code FONT_BAR (Level 0) in
  Ok canvas.

Definition compose_label (uid : str) : result image :=
  label <- Image_new RGB (LABEL_W, LABEL_H) (Named (lit "white")) ;;
  let label := draw_text label (MARGIN, MARGIN) TEXT1 FONT_BIG (Level 0) in
  let label :=
    draw_text label (MARGIN, MARGIN + 38) TEXT2 FONT_MED (Level 0) in
  taqt <- load_logo (lit "img/taqt.png") 190 ;;
  weee <- load_logo (lit "img/WEEE.png") 70 ;;
  ce <- load_logo (lit "img/CE.png") 80 ;;
  let label := paste label taqt (LABEL_W - width taqt - MARGIN, MARGIN) true in
  let gap := 4 in
  let total_width := width weee + gap + width ce in
  let x_start := LABEL_W - total_width - MARGIN in
  let y_logos := LABEL_H - Z.max (height weee) (height ce) - MARGIN in
  let label := paste label weee (x_start, y_logos) true in
  let label := paste label ce (x_start + width weee + gap, y_logos) true in
  let full_code := PREFIX ++ uid in
  barcode <- make_barcode full_code ;;
  let label :=
    paste label barcode (MARGIN, LABEL_H - height barcode - MARGIN) false in
  Ok label.

(** ** Serial port *)

(** Truth value of [PORT]: [None] and the empty string are false. *)
Definition truthy (p : option str) : bool :=
  match p with
  | Some (_ :: _) => true
  | _ => false
  end.

Definition autodetect_port : result str :=
  let ports := comports w in
  if truthy PORT then Ok (match PORT with Some p => p | None => [] end)
  else if Nat.eqb (List.length ports) 1 then Ok (hd [] ports)
  else Raise (mk_exn RuntimeError
                (lit "Plusieurs ports USB" ++ [0x2011]
                 ++ lit "COM ; fixez PORT dans le script.")).

(** ** Main loop *)

(** What the run has changed so far. *)
Record state := mk_state {
  buf : bytes;                         (* the bytearray [buf] *)
  files : list (str * str * image);    (* directory, name, image saved *)
  log : list (Z * str);                (* records emitted: level, message *)
  clock : nat;                         (* calls of [now] so far *)
  opened : option str                  (* the serial port opened *)
}.

Definition initial : state := mk_state [] [] [] 0 None.

Definition set_buf (st : state) (b : bytes) : state :=
  mk_state b (files st) (log st) (clock st) (opened st).

(** [logging.log(level, msg)] on the root logger set to [LOG_LEVEL]. *)
Definition logging (level : Z) (msg : str) (st : state) : state :=
  if LOG_LEVEL <=? level
  then mk_state (buf st) (files st) (log st ++ [(level, msg)]) (clock st)
                (opened st)
  else st.

(** The file that [img.save(OUT_DIR / name, dpi=(300, 300))] has written,
    when it returns. *)
Definition save (name : str) (img : image) (st : state) : state :=
  mk_state (buf st) (files st ++ [(OUT_DIR, name, img)]) (log st) (clock st)
           (opened st).

Definition tick (st : state) : state :=
  mk_state (buf st) (files st) (log st) (S (clock st)) (opened st).

(** Lines 121 to 124: append what was read; when the buffer ends with the
    terminator, decode it, strip it, clear the buffer and hand the line
    over. *)
Definition frame (b : bytes) (chunk : bytes) : bytes * option (result str) :=
  let b := b ++ chunk in
  if endswith b END_BYTES
  then ([], Some (text <- decode Ignore b ;; Ok (strip text)))
  else (b, None).

(** [re.search(r"/m/(\d{6,12})/", line)], then [m.group(1)]. *)
Definition extract_uid (line : str) : option str :=
  match search UID_PATTERN line with
  | None => None
  | Some m => Some (group m 1)
  end.

Definition label_name (uid ts : str) : str :=
  lit "label_" ++ PREFIX ++ uid ++ lit "_" ++ ts ++ lit ".png".

(** Lines 126 to 137: what is done with a line. *)
Definition handle_line (line : str) (st : state) : option exn * state :=
  match extract_uid line with
  | None =>
    (None, logging DEBUG (lit "Ignor" ++ [0xE9] ++ lit " : " ++ line) st)
  | Some uid =>
    match compose_label uid with
    | Raise e => (Some e, st)
    | Ok img =>
      let ts := strftime_compact (now w (clock st)) in
      let name := label_name uid ts in
      match image_save w (clock st) name img with
      | Some e => (Some e, tick st)
      | None =>
        let st := save name img (tick st) in
        (None, logging INFO ([0x2714] ++ lit " " ++ PREFIX ++ uid ++ lit " "
                               ++ [0x2192] ++ lit " " ++ name) st)
      end
    end
  end.

(** One turn of [while True], given what [ser.read] returned. *)
Definition loop_body (chunk : bytes) (st : state) : option exn * state :=
  match frame (buf st) chunk with
  | (b, None) => (None, set_buf st b)
  | (b, Some (Raise e)) => (Some e, set_buf st (buf st ++ chunk))
  | (b, Some (Ok line)) => handle_line line (set_buf st b)
  end.

(** The loop, over the reads still to come. It stops at the first
    exception; when the reads are used up it is still waiting. *)
Fixpoint loop (reads : list read_event) (st : state)
  : option exn * state * list read_event :=
  match reads with
  | [] => (None, st, [])
  | ReadRaises e :: rest => (Some e, st, rest)
  | Data chunk :: rest =>
    match loop_body chunk st with
    | (Some e, st') => (Some e, st', rest)
    | (None, st') => loop rest st'
    end
  end.

Inductive outcome :=
| Waiting                  (* the loop is blocked in [ser.read] *)
| Returned                 (* [main] returned *)
| SysExit (code : Z)       (* [sys.exit(code)] *)
| Uncaught (e : exn).      (* an exception left [main] *)

(** The two handlers of the [try] of [main]. *)
Definition handlers (e : exn) (st : state) : outcome * state :=
  match exn_cls e with
  | KeyboardInterrupt =>
    (Returned,
     logging INFO ([0x0A] ++ lit "Arr" ++ [0xEA] ++ lit "t demand"
                   ++ [0xE9] ++ lit ".") st)
  | _ => (SysExit 1, logging ERROR (lit "Erreur : " ++ exn_msg e) st)
  end.

(** The message logged once the port is chosen. *)
Definition greeting (port : str) : str :=
  lit "Port " ++ port ++ lit " @ 115200 bauds " ++ [0x2013] ++ lit " pr"
  ++ [0xEA] ++ lit "t (Ctrl" ++ [0x2011] ++ lit "C pour quitter)".

(** [serial.Serial(port, ...)] succeeded, and [buf = bytearray()]. *)
Definition open_port (port : str) (st : state) : state :=
  mk_state [] (files st) (log st) (clock st) (Some port).

Definition main (reads : list read_event)
  : outcome * state * list read_event :=
  match autodetect_port with
  | Raise e => (Uncaught e, initial, reads)
  | Ok port =>
    let st := logging INFO (greeting port) initial in
    match serial_open w port with
    | Some e => let '(o, st') := handlers e st in (o, st', reads)
    | None =>
      match loop reads (open_port port st) with
      | (Some e, st', rest) =>
        let '(o, st'') := handlers e st' in (o, st'', rest)
      | (None, st', rest) => (Waiting, st', rest)
      end
    end
  end.

(** Exit status of the process, once it has ended: an exception that
    leaves [main] ends the interpreter with status 1. *)
Definition exit_status (o : outcome) : option Z :=
  match o with
  | Waiting => None
  | Returned => Some 0
  | SysExit c => Some c
  | Uncaught _ => Some 1
  end.

(** The lines the loop hands over, for reads that all return data. *)
Fixpoint lines_framed (b : bytes) (chunks : list bytes) : list (result str) :=
  match chunks with
  | [] => []
  | chunk :: rest =>
    match frame b chunk with
    | (b', Some line) => line :: lines_framed b' rest
    | (b', None) => lines_framed b' rest
    end
  end.

End Script.

End Sticker.

(* ------------------------------------------------------------------------- *)
(** * What the specification says, in its own words *)
(* ------------------------------------------------------------------------- *)
Module Spec.
Import Py Sticker.

(** Splitting a byte stream on the terminator [\r]: the records that are
    followed by a terminator, in order ([acc] holds, reversed, the bytes of
    the record being read). *)
Fixpoint split_terminated (acc stream : bytes) : list bytes :=
  match stream with
  | [] => []
  | b :: rest =>
    if b =? 0x0D then rev acc :: split_terminated [] rest
    else split_terminated (b :: acc) rest
  end.

(** A record made into a Line: decoded leniently, then stripped. *)
Definition line_of (record : bytes) : result str :=
  bind (decode Ignore record) (fun text => Ok (strip text)).

(** "Concatenation, then split on the terminator". *)
Definition stream_lines (stream : bytes) : list (result str) :=
  map line_of (split_terminated [] stream).

(** A chunk in which no byte but the last is the terminator. *)
Definition terminator_last (chunk : bytes) : bool :=
  forallb (fun b => negb (b =? 0x0D)) (removelast chunk).

(** A Line made by a decoder that replaces what it cannot decode. *)
Definition line_replacing (record : bytes) : result str :=
  bind (decode Replace record) (fun text => Ok (strip text)).

(** [line] holds, at offset [i], ["/m/"], the digits [ds] (6 to 12 of
    them, for the given notion of digit) and ["/"]. *)
Definition candidate (dig : Z -> bool) (line : str) (i : nat) (ds : str)
  : Prop :=
  exists pre post,
    line = pre ++ lit "/m/" ++ ds ++ lit "/" ++ post
    /\ List.length pre = i
    /\ forallb dig ds = true
    /\ (6 <= List.length ds <= 12)%nat.

(** The extractor, as the specification describes it for a notion of
    digit: the digits of the leftmost candidate, and nothing when there is
    no candidate. *)
Definition extractor_spec (dig : Z -> bool) (line : str) : Prop :=
  (forall i ds,
      candidate dig line i ds ->
      (forall j ds', (j < i)%nat -> ~ candidate dig line j ds') ->
      extract_uid line = Some ds)
  /\ ((forall i ds, ~ candidate dig line i ds) -> extract_uid line = None).

End Spec.

(* ------------------------------------------------------------------------- *)
(** * Auxiliary functions of the proofs, and sample worlds *)
(* ------------------------------------------------------------------------- *)
Module Aux.
Import Py Re Pil Sticker.

(** The longest run of decimal digits at the head of [s], and what
    follows it. *)
Fixpoint span_digits (s : str) : str * str :=
  match s with
  | [] => ([], [])
  | c :: s' =>
    if isdecimal c
    then let '(ds, rest) := span_digits s' in (c :: ds, rest)
    else ([], s)
  end.

(** [rest] does not begin with a decimal digit. *)
Definition digits_end (rest : str) : Prop :=
  forall d t, rest = d :: t -> isdecimal d = false.

(** The pattern of the script, matched by hand at the head of [s]. *)
Definition uid_here (s : str) : option str :=
  match s with
  | c1 :: c2 :: c3 :: t =>
    if (c1 =? 0x2F) && (c2 =? 0x6D) && (c3 =? 0x2F) then
      let '(ds, rest) := span_digits t in
      match rest with
      | c :: _ =>
        if (c =? 0x2F) && (6 <=? List.length ds)%nat
           && (List.length ds <=? 12)%nat
        then Some ds else None
      | [] => None
      end
    else None
  | _ => None
  end.

(** The text [bytes.decode(errors="ignore")] returns. *)
Definition text_of (b : bytes) : str := flat_map (handle Ignore) (utf8_scan b).

(** No byte of [b] is the terminator. *)
Definition no_terminator (b : bytes) : bool :=
  forallb (fun x => negb (x =? 0x0D)) b.

(** A read that returns no byte after a terminator. *)
Definition tidy_read (r : read_event) : Prop :=
  match r with
  | Data chunk => Spec.terminator_last chunk = true
  | ReadRaises _ => True
  end.

Fixpoint first_uid (s : str) : option str :=
  match uid_here s with
  | Some ds => Some ds
  | None =>
    match s with
    | [] => None
    | _ :: s' => first_uid s'
    end
  end.

(** A date and time as [datetime.now()] returns them, with a year of four
    digits. *)
Definition valid_datetime (t : datetime) : Prop :=
  1000 <= year t <= 9999 /\ 1 <= month t <= 12 /\ 1 <= day t <= 31
  /\ 0 <= hour t <= 23 /\ 0 <= minute t <= 59 /\ 0 <= second t <= 59.



(** A character that no match of the pattern can hold: neither ["/"], nor
    ["m"], nor a decimal digit. *)
Definition separator (c : Z) : bool :=
  negb (c =? 0x2F) && negb (c =? 0x6D) && negb (isdecimal c).



(** The value of a result known to be [Ok]. *)
Definition get {A : Type} (default : A) (r : result A) : A :=
  match r with
  | Ok a => a
  | Raise _ => default
  end.

Definition blank : image := mk_image RGB 0 0 [].

(** A world with its three logos, one scanner, and a renderer whose
    symbol grows with the payload. *)
Definition sample_logo (path : str) : result image :=
  Ok (mk_image RGB 381 127 [Opened path]).

Definition sample_barcode (kind code : str) (options : list (str * str))
  : result image :=
  Ok (mk_image RGB (66 + 33 * Z.of_nat (List.length code)) 80
               [Symbol kind code options]).

Definition sample_bbox (f : font) (text : str) : Z * Z * Z * Z :=
  (0, 5, 13 * Z.of_nat (List.length text), 22).

Definition sample_world : world :=
  mk_world sample_logo sample_barcode sample_bbox [lit "COM4"]
           (fun _ => None) (fun _ => mk_datetime 2024 5 17 9 3 7)
           (fun _ _ _ => None).

(** The same world without [img/taqt.png]. *)
Definition no_such_file (path : str) : exn :=
  mk_exn OSError (lit "No such file or directory: " ++ path).

Definition world_without_logo : world :=
  mk_world (fun path => if startswith path (lit "img/taqt")
                        then Raise (no_such_file path)
                        else sample_logo path)
           sample_barcode sample_bbox [lit "COM4"]
           (fun _ => None) (fun _ => mk_datetime 2024 5 17 9 3 7)
           (fun _ _ _ => None).

(** The same world with two serial devices. *)
Definition world_two_ports : world :=
  mk_world sample_logo sample_barcode sample_bbox [lit "COM3"; lit "COM4"]
           (fun _ => None) (fun _ => mk_datetime 2024 5 17 9 3 7)
           (fun _ _ _ => None).

(** The same world with a scanner that cannot be opened. *)
Definition world_port_busy : world :=
  mk_world sample_logo sample_barcode sample_bbox [lit "COM4"]
           (fun port => Some (mk_exn OSError (lit "could not open port "
                                                  ++ port)))
           (fun _ => mk_datetime 2024 5 17 9 3 7)
           (fun _ _ _ => None).

(** The same world with a renderer that refuses every payload. *)
Definition world_without_renderer : world :=
  mk_world sample_logo
           (fun _ _ _ => Raise (mk_exn LibraryError (lit "ghostscript")))
           sample_bbox [lit "COM4"]
           (fun _ => None) (fun _ => mk_datetime 2024 5 17 9 3 7)
           (fun _ _ _ => None).

(** The same world with an output directory that cannot be written. *)
Definition world_disk_full : world :=
  mk_world sample_logo sample_barcode sample_bbox [lit "COM4"]
           (fun _ => None) (fun _ => mk_datetime 2024 5 17 9 3 7)
           (fun _ name _ =>
              Some (mk_exn OSError (lit "No space left on device: "
                                        ++ name))).

End Aux.

Import Py Re Pil Sticker Spec Aux.
(* ------------------------------------------------------------------------- *)
(** * Port selection *)
(* ------------------------------------------------------------------------- *)

Lemma autodetect_override (p : str) (w : world) :
  truthy (Some p) = true -> autodetect_port (Some p) w = Ok p.
Proof.
  intros H. unfold autodetect_port. rewrite H. reflexivity.
Qed.

Lemma autodetect_auto (PORT : option str) (w : world) :
  truthy PORT = false ->
  autodetect_port PORT w =
  match comports w with
  | [d] => Ok d
  | _ => Raise (mk_exn RuntimeError
                  (lit "Plusieurs ports USB" ++ [0x2011]
                   ++ lit "COM ; fixez PORT dans le script."))
  end.
Proof.
  intros H. unfold autodetect_port. rewrite H.
  destruct (comports w) as [|d [|d' ds]]; reflexivity.
Qed.

(** C10. When the override [PORT] is a non-empty string, [autodetect_port]
    returns it unchanged, whatever the enumeration holds: no device, several
    devices, or devices among which the override does not appear. *)
Theorem autodetect_port_override_unvalidated (p : str) (w : world) :
  p <> [] -> autodetect_port (Some p) w = Ok p.
Proof.
  intros Hp. apply autodetect_override.
  destruct p as [|c p']; [contradiction | reflexivity].
Qed.

Lemma autodetect_port_override_unvalidated_witness :
  autodetect_port (Some (lit "COM9")) world_two_ports = Ok (lit "COM9")
  /\ autodetect_port (Some (lit "COM9"))
       (mk_world sample_logo sample_barcode sample_bbox []
                 (fun _ => None) (fun _ => mk_datetime 2024 5 17 9 3 7)
                 (fun _ _ _ => None))
     = Ok (lit "COM9").
Proof.
  split; apply autodetect_port_override_unvalidated; discriminate.
Defined.

(** C8. Without an override, a port is selected exactly when one device is
    enumerated, and it is that device; with any other number of devices
    (several, or none) [RuntimeError] leaves [main] before anything is
    logged, opened or read, and the process ends with status 1. *)
Theorem port_selection (PORT : option str) (w : world)
        (reads : list read_event) :
  truthy PORT = false ->
  (forall d, autodetect_port PORT w = Ok d <-> comports w = [d])
  /\ (List.length (comports w) <> 1%nat ->
      exists e,
        autodetect_port PORT w = Raise e
        /\ exn_cls e = RuntimeError
        /\ main PORT w reads = (Uncaught e, initial, reads)
        /\ exit_status (Uncaught e) = Some 1
        /\ opened initial = None /\ log initial = []).
Proof.
  intros H. split.
  - intros d. rewrite (autodetect_auto PORT w H).
    destruct (comports w) as [|d0 [|d1 ds]]; split; intros E;
      try discriminate; congruence.
  - intros Hn. eexists. unfold main.
    rewrite (autodetect_auto PORT w H).
    destruct (comports w) as [|d0 [|d1 ds]]; simpl in Hn;
      try (exfalso; apply Hn; reflexivity);
      repeat split; reflexivity.
Qed.

Lemma port_selection_witness :
  (forall d, autodetect_port None world_two_ports = Ok d
             <-> comports world_two_ports = [d])
  /\ (List.length (comports world_two_ports) <> 1%nat ->
      exists e,
        autodetect_port None world_two_ports = Raise e
        /\ exn_cls e = RuntimeError
        /\ main None world_two_ports [Data (lit "x")]
           = (Uncaught e, initial, [Data (lit "x")])
        /\ exit_status (Uncaught e) = Some 1
        /\ opened initial = None /\ log initial = []).
Proof.
  apply (port_selection None world_two_ports [Data (lit "x")]). reflexivity.
Defined.

(* ------------------------------------------------------------------------- *)
(** * Label composition *)
(* ------------------------------------------------------------------------- *)

Lemma bind_Ok {A B} (r : result A) (k : A -> result B) (b : B) :
  bind r k = Ok b -> exists a, r = Ok a /\ k a = Ok b.
Proof.
  destruct r as [a|e]; simpl; intros H; [eauto | discriminate].
Qed.

Lemma paste_size dst src box masked :
  size (paste dst src box masked) = size dst.
Proof. reflexivity. Qed.

Lemma draw_text_size dst xy text f c :
  size (draw_text dst xy text f c) = size dst.
Proof. reflexivity. Qed.

Lemma Image_new_size m sz c img : Image_new m sz c = Ok img -> size img = sz.
Proof.
  destruct sz as [w h]. unfold Image_new.
  destruct ((w <? 0) || (h <? 0)); [discriminate|].
  intros E. injection E as <-. reflexivity.
Qed.

(** Whenever [compose_label] returns, the label has the canvas size. *)
Lemma compose_label_returns_canvas w uid img :
  compose_label w uid = Ok img -> size img = (LABEL_W, LABEL_H).
Proof.
  unfold compose_label. intros H.
  apply bind_Ok in H. destruct H as (label & Hnew & H).
  apply bind_Ok in H. destruct H as (taqt & _ & H).
  apply bind_Ok in H. destruct H as (weee & _ & H).
  apply bind_Ok in H. destruct H as (ce & _ & H).
  apply bind_Ok in H. destruct H as (barcode & _ & H).
  injection H as <-.
  rewrite !paste_size, !draw_text_size.
  exact (Image_new_size _ _ _ _ Hnew).
Qed.

(** With its three logos and a barcode, [compose_label] returns. *)
Lemma compose_label_ok w uid taqt weee ce barcode :
  load_logo w (lit "img/taqt.png") 190 = Ok taqt ->
  load_logo w (lit "img/WEEE.png") 70 = Ok weee ->
  load_logo w (lit "img/CE.png") 80 = Ok ce ->
  make_barcode w (PREFIX ++ uid) = Ok barcode ->
  exists img,
    compose_label w uid = Ok img
    /\ In (Paste barcode MARGIN (LABEL_H - height barcode - MARGIN) false)
          (made img).
Proof.
  intros Ht Hw Hc Hb. unfold compose_label.
  change (Image_new RGB (LABEL_W, LABEL_H) (Named (lit "white")))
    with (Ok (mk_image RGB LABEL_W LABEL_H [New (Named (lit "white"))])).
  cbv beta iota delta [bind].
  rewrite Ht, Hw, Hc, Hb.
  eexists. split; [reflexivity|].
  cbn [made paste draw_text]. apply in_or_app. right. left. reflexivity.
Qed.

(** C5. For every identifier, and whatever the size of the barcode raster
    and of the logos, [compose_label] (given its three logos and a rendered
    barcode) returns an image of exactly 543 by 248 pixels; and it never
    returns an image of another size. *)
Theorem compose_label_fixed_canvas (w : world) (uid : str)
        (taqt weee ce barcode : image) :
  load_logo w (lit "img/taqt.png") 190 = Ok taqt ->
  load_logo w (lit "img/WEEE.png") 70 = Ok weee ->
  load_logo w (lit "img/CE.png") 80 = Ok ce ->
  make_barcode w (PREFIX ++ uid) = Ok barcode ->
  (exists img, compose_label w uid = Ok img
               /\ width img = 543 /\ height img = 248)
  /\ (forall w' uid' img', compose_label w' uid' = Ok img' ->
                           width img' = 543 /\ height img' = 248).
Proof.
  intros Ht Hw Hc Hb.
  assert (Hsize : forall w' uid' img', compose_label w' uid' = Ok img' ->
                                       width img' = 543 /\ height img' = 248).
  { intros w' uid' img' H. apply compose_label_returns_canvas in H.
    unfold size in H. injection H as H1 H2. split; assumption. }
  split; [|exact Hsize].
  destruct (compose_label_ok w uid _ _ _ _ Ht Hw Hc Hb) as (img & Himg & _).
  exists img. split; [exact Himg | exact (Hsize _ _ _ Himg)].
Qed.

Lemma compose_label_fixed_canvas_witness :
  (exists img, compose_label sample_world (lit "123456789012") = Ok img
               /\ width img = 543 /\ height img = 248)
  /\ (forall w' uid' img', compose_label w' uid' = Ok img' ->
                           width img' = 543 /\ height img' = 248).
Proof.
  eapply (compose_label_fixed_canvas sample_world (lit "123456789012"));
    vm_compute; reflexivity.
Defined.

(* ------------------------------------------------------------------------- *)
(** * The framing buffer *)
(* ------------------------------------------------------------------------- *)

Lemma endswith_nil : endswith [] END_BYTES = false.
Proof. reflexivity. Qed.

Lemma endswith_snoc (b : bytes) (x : Z) :
  endswith (b ++ [x]) END_BYTES = (x =? 0x0D).
Proof.
  unfold endswith, END_BYTES. rewrite rev_app_distr. simpl.
  destruct (rev b); apply andb_true_r.
Qed.

Lemma endswith_inv (b : bytes) :
  endswith b END_BYTES = true -> exists b', b = b' ++ [0x0D].
Proof.
  destruct b as [|x b0 _] using rev_ind; [discriminate|].
  rewrite endswith_snoc. intros H. apply Z.eqb_eq in H. subst x.
  exists b0. reflexivity.
Qed.

Lemma decode_ignore_ok (b : bytes) : decode Ignore b = Ok (text_of b).
Proof. reflexivity. Qed.

Lemma line_of_ok (b : bytes) : line_of b = Ok (strip (text_of b)).
Proof. reflexivity. Qed.

Lemma frame_terminated (b chunk : bytes) :
  endswith (b ++ chunk) END_BYTES = true ->
  frame b chunk = ([], Some (Ok (strip (text_of (b ++ chunk))))).
Proof. intros H. unfold frame. rewrite H. reflexivity. Qed.

Lemma frame_pending (b chunk : bytes) :
  endswith (b ++ chunk) END_BYTES = false ->
  frame b chunk = (b ++ chunk, None).
Proof. intros H. unfold frame. rewrite H. reflexivity. Qed.

Lemma logging_buf level msg st : buf (logging level msg st) = buf st.
Proof. unfold logging. destruct (LOG_LEVEL <=? level); reflexivity. Qed.

Lemma logging_files level msg st : files (logging level msg st) = files st.
Proof. unfold logging. destruct (LOG_LEVEL <=? level); reflexivity. Qed.

Lemma handle_line_buf w line st : buf (snd (handle_line w line st)) = buf st.
Proof.
  unfold handle_line.
  destruct (extract_uid line) as [uid|]; [|apply logging_buf].
  destruct (compose_label w uid); [|reflexivity].
  destruct (image_save w _ _ _); [reflexivity|].
  cbn [snd]. rewrite logging_buf. reflexivity.
Qed.

Lemma loop_body_terminated w chunk st :
  endswith (buf st ++ chunk) END_BYTES = true ->
  loop_body w chunk st =
  handle_line w (strip (text_of (buf st ++ chunk))) (set_buf st []).
Proof.
  intros H. unfold loop_body. rewrite (frame_terminated _ _ H). reflexivity.
Qed.

Lemma loop_body_pending w chunk st :
  endswith (buf st ++ chunk) END_BYTES = false ->
  loop_body w chunk st = (None, set_buf st (buf st ++ chunk)).
Proof.
  intros H. unfold loop_body. rewrite (frame_pending _ _ H). reflexivity.
Qed.

Lemma loop_body_unterminated w chunk st :
  endswith (buf (snd (loop_body w chunk st))) END_BYTES = false.
Proof.
  destruct (endswith (buf st ++ chunk) END_BYTES) eqn:E.
  - rewrite (loop_body_terminated _ _ _ E), handle_line_buf. reflexivity.
  - rewrite (loop_body_pending _ _ _ E). exact E.
Qed.

Lemma loop_unterminated w reads : forall st,
  endswith (buf st) END_BYTES = false ->
  endswith (buf (snd (fst (loop w reads st)))) END_BYTES = false.
Proof.
  induction reads as [|[chunk|e] rest IH]; intros st H; simpl; auto.
  pose proof (loop_body_unterminated w chunk st) as Hb.
  destruct (loop_body w chunk st) as [[e|] st']; simpl in *; auto.
Qed.

Lemma handlers_buf e st : buf (snd (handlers e st)) = buf st.
Proof.
  unfold handlers. destruct (exn_cls e); apply logging_buf.
Qed.

Lemma main_unterminated PORT w reads :
  endswith (buf (snd (fst (main PORT w reads)))) END_BYTES = false.
Proof.
  unfold main. destruct (autodetect_port PORT w) as [port|e]; [|reflexivity].
  destruct (serial_open w port) as [e|].
  - pose proof (handlers_buf e (logging INFO (greeting port) initial)) as Hh.
    destruct (handlers e _) as [o st']. cbn [fst snd] in *.
    rewrite Hh, logging_buf. reflexivity.
  - pose proof (loop_unterminated w reads
                  (open_port port (logging INFO (greeting port) initial))
                  eq_refl) as Hl.
    destruct (loop w reads _) as [[[e|] st'] rest]; cbn [fst snd] in *; auto.
    pose proof (handlers_buf e st') as Hh.
    destruct (handlers e st') as [o st'']. cbn [fst snd] in *. congruence.
Qed.

(* ------------------------------------------------------------------------- *)
(** * Failure of the composition *)
(* ------------------------------------------------------------------------- *)

Lemma loop_app w (r1 r2 : list read_event) : forall st,
  loop w (r1 ++ r2) st =
  match loop w r1 st with
  | (None, st', _) => loop w r2 st'
  | (Some e, st', rest) => (Some e, st', rest ++ r2)
  end.
Proof.
  induction r1 as [|[chunk|e] r1 IH]; intros st; simpl; auto.
  destruct (loop_body w chunk st) as [[e|] st']; auto.
Qed.

Lemma load_logo_missing w path width_px e :
  image_open w path = Raise e -> load_logo w path width_px = Raise e.
Proof. intros H. unfold load_logo. rewrite H. reflexivity. Qed.

Lemma compose_label_missing_logo w uid path e :
  In path [lit "img/taqt.png"; lit "img/WEEE.png"; lit "img/CE.png"] ->
  image_open w path = Raise e ->
  exists e', compose_label w uid = Raise e'.
Proof.
  intros Hin Hopen. unfold compose_label.
  change (Image_new RGB (LABEL_W, LABEL_H) (Named (lit "white")))
    with (Ok (mk_image RGB LABEL_W LABEL_H [New (Named (lit "white"))])).
  cbv beta iota delta [bind].
  destruct (load_logo w (lit "img/taqt.png") 190) as [taqt|e1] eqn:E1;
    [|eauto].
  destruct (load_logo w (lit "img/WEEE.png") 70) as [weee|e2] eqn:E2;
    [|eauto].
  destruct (load_logo w (lit "img/CE.png") 80) as [ce|e3] eqn:E3;
    [|eauto].
  exfalso.
  destruct Hin as [<-|[<-|[<-|[]]]];
    [ rewrite (load_logo_missing _ _ _ _ Hopen) in E1
    | rewrite (load_logo_missing _ _ _ _ Hopen) in E2
    | rewrite (load_logo_missing _ _ _ _ Hopen) in E3 ]; discriminate.
Qed.

Lemma handlers_Exception e st :
  is_Exception e = true ->
  handlers e st = (SysExit 1, logging ERROR (lit "Erreur : " ++ exn_msg e) st).
Proof.
  unfold is_Exception, handlers. destruct (exn_cls e); intros H;
    [discriminate | reflexivity ..].
Qed.

(** C7. When the composition of a label raises an exception (any subclass
    of [Exception]) in some turn of the loop, [main] logs it at level ERROR
    and calls [sys.exit(1)]: no file is saved for that identifier, the
    reads that follow are not consumed, and nothing is tried again. A logo
    that cannot be opened is such a failure. *)
Theorem crash_on_compose_failure (PORT : option str) (w : world)
        (port : str) (before after : list read_event) (chunk : bytes)
        (st : state) (line uid : str) (e : exn) :
  autodetect_port PORT w = Ok port ->
  serial_open w port = None ->
  loop w before (open_port port (logging INFO (greeting port) initial))
    = (None, st, []) ->
  frame (buf st) chunk = ([], Some (Ok line)) ->
  extract_uid line = Some uid ->
  compose_label w uid = Raise e ->
  is_Exception e = true ->
  (exists st',
      main PORT w (before ++ Data chunk :: after) = (SysExit 1, st', after)
      /\ exit_status (SysExit 1) = Some 1
      /\ files st' = files st
      /\ log st' = log st ++ [(ERROR, lit "Erreur : " ++ exn_msg e)])
  /\ (forall path e0 uid0,
         In path [lit "img/taqt.png"; lit "img/WEEE.png"; lit "img/CE.png"] ->
         image_open w path = Raise e0 ->
         exists e', compose_label w uid0 = Raise e').
Proof.
  intros Hport Hopen Hbefore Hframe Huid Hfail Hexc.
  split; [|intros path e0 uid0; apply compose_label_missing_logo].
  eexists. unfold main. rewrite Hport, Hopen, loop_app, Hbefore.
  cbn [loop]. unfold loop_body. rewrite Hframe.
  unfold handle_line. rewrite Huid, Hfail.
  rewrite (handlers_Exception _ _ Hexc).
  repeat split.
Qed.

Lemma crash_on_compose_failure_witness :
  (exists st',
      main None world_without_logo
           ([Data (lit "junk" ++ [0x0D])]
              ++ Data (lit "noise/m/123456/end" ++ [0x0D])
              :: [Data (lit "/m/7654321/" ++ [0x0D])])
      = (SysExit 1, st', [Data (lit "/m/7654321/" ++ [0x0D])])
      /\ exit_status (SysExit 1) = Some 1
      /\ files st' = []
      /\ log st' = [(INFO, greeting (lit "COM4"))]
                     ++ [(ERROR, lit "Erreur : " ++ exn_msg
                                   (no_such_file (lit "img/taqt.png")))])
  /\ (forall path e0 uid0,
         In path [lit "img/taqt.png"; lit "img/WEEE.png"; lit "img/CE.png"] ->
         image_open world_without_logo path = Raise e0 ->
         exists e', compose_label world_without_logo uid0 = Raise e').
Proof.
  apply (crash_on_compose_failure None world_without_logo (lit "COM4")
           [Data (lit "junk" ++ [0x0D])]
           [Data (lit "/m/7654321/" ++ [0x0D])]
           (lit "noise/m/123456/end" ++ [0x0D])
           (mk_state [] [] [(INFO, greeting (lit "COM4"))] 0
                     (Some (lit "COM4")))
           (lit "noise/m/123456/end") (lit "123456")
           (no_such_file (lit "img/taqt.png")));
    vm_compute; reflexivity.
Defined.

(* ------------------------------------------------------------------------- *)
(** * Decoding and stripping *)
(* ------------------------------------------------------------------------- *)

Lemma ascii_not_continuation (c : Z) :
  (c <? 0x80) = true -> is_continuation c = false.
Proof.
  intros H. unfold is_continuation. apply Z.ltb_lt in H.
  destruct (Z.leb_spec 0x80 c); [lia | reflexivity].
Qed.

Lemma text_of_ascii_cons (c : Z) (b : bytes) :
  (c <? 0x80) = true -> text_of (c :: b) = c :: text_of b.
Proof. intros H. unfold text_of. cbn [utf8_scan]. rewrite H. reflexivity. Qed.

(** A byte below 0x80 is decoded by itself wherever it stands, so the text
    of a buffer that ends with one is the text of what precedes, followed
    by that byte. *)
Lemma text_of_snoc_ascii_bounded (c : Z) :
  (c <? 0x80) = true ->
  forall (n : nat) (b : bytes),
    (List.length b <= n)%nat -> text_of (b ++ [c]) = text_of b ++ [c].
Proof.
  intros Hc. pose proof (ascii_not_continuation c Hc) as Hnc.
  assert (Hnil : flat_map (handle Ignore) (utf8_scan [c]) = [c])
    by (cbn [utf8_scan]; rewrite Hc; reflexivity).
  unfold text_of.
  induction n as [|n IH]; intros b Hlen.
  - destruct b; [exact Hnil | simpl in Hlen; lia].
  - destruct b as [|ch s1]; [exact Hnil|].
    cbn [app utf8_scan].
    repeat match goal with
           | |- flat_map _ (match ?l ++ [c] with _ => _ end) = _ =>
             is_var l; pose proof (IH l); destruct l; cbn [app] in *
           | |- flat_map _ (if ?b then _ else _) = _ =>
             lazymatch b with
             | context [is_continuation c] => rewrite Hnc; cbn [negb orb]
             | _ => destruct b eqn:?
             end
           end;
      cbn [flat_map handle app];
      repeat match goal with
             | H : _ -> flat_map _ _ = _ |- _ =>
               first [ rewrite H by (cbn [List.length] in *; lia) | clear H ]
             end;
      rewrite ?IH by (cbn [List.length] in *; lia);
      reflexivity.
Qed.

Lemma text_of_snoc_ascii (c : Z) (b : bytes) :
  (c <? 0x80) = true -> text_of (b ++ [c]) = text_of b ++ [c].
Proof.
  intros Hc. exact (text_of_snoc_ascii_bounded c Hc (List.length b) b (le_n _)).
Qed.

Lemma lstrip_app (s t : str) :
  lstrip (s ++ t) = match lstrip s with
                    | [] => lstrip t
                    | _ :: _ => lstrip s ++ t
                    end.
Proof.
  induction s as [|c s IH]; simpl.
  - destruct (lstrip t); reflexivity.
  - destruct (isspace c); [exact IH | reflexivity].
Qed.

Lemma rstrip_snoc_space (s : str) (c : Z) :
  isspace c = true -> rstrip (s ++ [c]) = rstrip s.
Proof.
  intros H. unfold rstrip. rewrite rev_app_distr. simpl. rewrite H.
  reflexivity.
Qed.

Lemma strip_snoc_space (s : str) (c : Z) :
  isspace c = true -> strip (s ++ [c]) = strip s.
Proof.
  intros H. unfold strip. rewrite lstrip_app.
  destruct (lstrip s) as [|x l] eqn:E.
  - simpl. rewrite H. reflexivity.
  - apply rstrip_snoc_space, H.
Qed.

Lemma lstrip_spec (s : str) :
  exists l, s = l ++ lstrip s
            /\ forallb isspace l = true
            /\ (forall c t, lstrip s = c :: t -> isspace c = false).
Proof.
  induction s as [|x s (l & E & Hl & Hh)]; simpl.
  - exists []. repeat split. discriminate.
  - destruct (isspace x) eqn:Hx.
    + exists (x :: l). simpl. rewrite Hx, Hl, <- E. auto.
    + exists []. repeat split. intros c t Ec. congruence.
Qed.

Lemma rstrip_spec (s : str) :
  exists r, s = rstrip s ++ r
            /\ forallb isspace r = true
            /\ (forall t c, rstrip s = t ++ [c] -> isspace c = false).
Proof.
  destruct (lstrip_spec (rev s)) as (l & E & Hl & Hh).
  exists (rev l). unfold rstrip. repeat split.
  - rewrite <- rev_app_distr, <- E, rev_involutive. reflexivity.
  - rewrite forallb_forall in *. intros x Hx. apply Hl, in_rev, Hx.
  - intros t c Et. apply (Hh c (rev t)).
    rewrite <- (rev_involutive (lstrip (rev s))), Et, rev_app_distr.
    reflexivity.
Qed.

(** What [strip] returns: the text without the white space at its two
    ends. *)
Lemma strip_spec (s : str) :
  exists l r,
    s = l ++ strip s ++ r
    /\ forallb isspace l = true
    /\ forallb isspace r = true
    /\ (forall c t, strip s = c :: t -> isspace c = false)
    /\ (forall t c, strip s = t ++ [c] -> isspace c = false).
Proof.
  destruct (lstrip_spec s) as (l & El & Hl & Hh).
  destruct (rstrip_spec (lstrip s)) as (r & Er & Hr & Ht).
  exists l, r. unfold strip. repeat split; auto.
  - rewrite <- Er. exact El.
  - intros c t E. rewrite E in Er. simpl in Er. exact (Hh c _ Er).
Qed.

(* ------------------------------------------------------------------------- *)
(** * Framing *)
(* ------------------------------------------------------------------------- *)

Lemma no_terminator_app (a b : bytes) :
  no_terminator (a ++ b) = no_terminator a && no_terminator b.
Proof. apply forallb_app. Qed.

Lemma no_terminator_unterminated (b : bytes) :
  no_terminator b = true -> endswith b END_BYTES = false.
Proof.
  intros H. destruct (endswith b END_BYTES) eqn:E; [|reflexivity].
  apply endswith_inv in E. destruct E as (b' & ->).
  rewrite no_terminator_app in H. simpl in H.
  rewrite andb_false_r in H. discriminate.
Qed.

Lemma terminator_last_cases (chunk : bytes) :
  terminator_last chunk = true ->
  no_terminator chunk = true
  \/ exists body, chunk = body ++ [0x0D] /\ no_terminator body = true.
Proof.
  unfold terminator_last.
  destruct chunk as [|x body _] using rev_ind; [left; reflexivity|].
  rewrite removelast_last. intros H. change (no_terminator body = true) in H.
  destruct (x =? 0x0D) eqn:Ex.
  - right. apply Z.eqb_eq in Ex. subst x. exists body. auto.
  - left. rewrite no_terminator_app, H. simpl. rewrite Ex. reflexivity.
Qed.

Lemma split_no_terminator (body : bytes) : forall acc tail,
  no_terminator body = true ->
  split_terminated acc (body ++ tail) = split_terminated (rev body ++ acc) tail.
Proof.
  induction body as [|x body IH]; intros acc tail H; [reflexivity|].
  simpl in H. apply andb_true_iff in H. destruct H as [Hx Hb].
  simpl. apply negb_true_iff in Hx. rewrite Hx, (IH _ _ Hb), <- app_assoc.
  reflexivity.
Qed.

(** The terminator is white space below 0x80: a terminated record gives
    the line of the record without its terminator. *)
Lemma line_of_terminated (record : bytes) :
  line_of (record ++ [0x0D]) = line_of record.
Proof.
  rewrite !line_of_ok, text_of_snoc_ascii by reflexivity.
  rewrite strip_snoc_space by reflexivity. reflexivity.
Qed.

(** Framing against splitting, for a pending buffer without terminator and
    chunks in which the terminator only comes last. *)
Lemma lines_framed_split (chunks : list bytes) : forall b,
  no_terminator b = true ->
  Forall (fun chunk => terminator_last chunk = true) chunks ->
  lines_framed b chunks
  = map line_of (split_terminated (rev b) (concat chunks)).
Proof.
  induction chunks as [|chunk rest IH]; intros b Hb Hall; [reflexivity|].
  inversion Hall as [|? ? Hchunk Hrest]; subst.
  cbn [lines_framed concat].
  destruct (terminator_last_cases chunk Hchunk) as [Hno|(body & -> & Hno)].
  - assert (Hbc : no_terminator (b ++ chunk) = true)
      by (rewrite no_terminator_app, Hb, Hno; reflexivity).
    rewrite (frame_pending _ _ (no_terminator_unterminated _ Hbc)).
    rewrite (IH _ Hbc Hrest), (split_no_terminator _ _ _ Hno), rev_app_distr.
    reflexivity.
  - assert (Hend : endswith (b ++ body ++ [0x0D]) END_BYTES = true)
      by (rewrite app_assoc, endswith_snoc; reflexivity).
    rewrite (frame_terminated _ _ Hend), <- line_of_ok.
    rewrite (IH [] eq_refl Hrest).
    rewrite <- app_assoc, (split_no_terminator _ _ _ Hno).
    cbn [app split_terminated map]. rewrite Z.eqb_refl. cbn [map].
    rewrite rev_app_distr, !rev_involutive.
    rewrite app_assoc, line_of_terminated. reflexivity.
Qed.

(** C1, as written, fails: a chunk with a terminator in its middle gives
    one line where the split stream has two. *)
Lemma framing_not_chunking_invariant :
  ~ (forall chunks : list bytes,
        lines_framed [] chunks = stream_lines (concat chunks)).
Proof.
  intros H.
  specialize (H [lit "a" ++ [0x0D] ++ lit "b" ++ [0x0D]]).
  vm_compute in H. discriminate H.
Qed.

(** C1, amended. The loop looks for the terminator at the end of the buffer
    only. For every sequence of chunks (empty ones included) in which the
    terminator is never followed by another byte of the same chunk, the lines
    handed over are those of the concatenated stream split on [\r], each
    decoded leniently and stripped; what follows the last terminator stays
    pending. *)
Theorem framing_follows_split (chunks : list bytes) :
  Forall (fun chunk => terminator_last chunk = true) chunks ->
  lines_framed [] chunks = stream_lines (concat chunks).
Proof.
  intros H. exact (lines_framed_split chunks [] eq_refl H).
Qed.

Lemma framing_follows_split_witness :
  lines_framed []
    [lit "xx/m/99"; []; lit "9999/" ++ [0x0D]; [0x0D]; lit "garb"; lit "age"]
  = stream_lines
      (concat [lit "xx/m/99"; []; lit "9999/" ++ [0x0D]; [0x0D]; lit "garb";
               lit "age"]).
Proof.
  apply framing_follows_split. repeat constructor.
Defined.

(* ------------------------------------------------------------------------- *)
(** * Lenient decoding *)
(* ------------------------------------------------------------------------- *)

Lemma decode_strict_ignore (b : bytes) (t : str) :
  decode Strict b = Ok t -> decode Ignore b = Ok t.
Proof.
  unfold decode. destruct (existsb is_malformed (utf8_scan b)); [discriminate|].
  intros H. exact H.
Qed.

Lemma replace_length (items : list utf8_item) :
  List.length (flat_map (handle Replace) items)
  = (List.length (flat_map (handle Ignore) items)
     + List.length (filter is_malformed items))%nat.
Proof.
  induction items as [|[cp|n] items IH]; simpl; lia.
Qed.

(** C6, as written, fails: the byte 0xFF inside a record is left out of the
    line, not replaced, so that the digits on its two sides meet. *)
Lemma undecodable_bytes_not_replaced :
  ~ (forall b : bytes,
        endswith b END_BYTES = true ->
        snd (frame [] b) = Some (line_replacing b)).
Proof.
  intros H.
  specialize (H (lit "/m/123" ++ [0xFF] ++ lit "456/" ++ [0x0D]) eq_refl).
  vm_compute in H. discriminate H.
Qed.

(** C6, amended. Decoding a terminated buffer never raises: the bytes that
    are not well-formed UTF-8 are left out of the text (nothing is put in
    their place; a decoder that replaces them would return one more
    character per ill-formed range), and a buffer that is valid UTF-8 is
    decoded as the strict decoder does. The line handed over is that text
    without the white space at its two ends. *)
Theorem lenient_decoding (b chunk : bytes) :
  endswith (b ++ chunk) END_BYTES = true ->
  exists text l r,
    decode Ignore (b ++ chunk) = Ok text
    /\ text = flat_map (fun i => match i with
                                 | Decoded cp => [cp]
                                 | Malformed _ => []
                                 end) (utf8_scan (b ++ chunk))
    /\ (forall replaced, decode Replace (b ++ chunk) = Ok replaced ->
          List.length replaced
          = Nat.add (List.length text)
              (List.length (filter is_malformed (utf8_scan (b ++ chunk)))))
    /\ (forall t, decode Strict (b ++ chunk) = Ok t -> text = t)
    /\ frame b chunk = ([], Some (Ok (strip text)))
    /\ text = l ++ strip text ++ r
    /\ forallb isspace l = true
    /\ forallb isspace r = true
    /\ (forall c t, strip text = c :: t -> isspace c = false)
    /\ (forall t c, strip text = t ++ [c] -> isspace c = false).
Proof.
  intros Hend.
  destruct (strip_spec (text_of (b ++ chunk)))
    as (l & r & E & Hl & Hr & Hh & Ht).
  exists (text_of (b ++ chunk)), l, r.
  split; [reflexivity|].
  split; [unfold text_of; apply flat_map_ext; intros [cp|n]; reflexivity|].
  split.
  { intros replaced H. injection H as <-. apply replace_length. }
  split.
  { intros t H. apply decode_strict_ignore in H.
    rewrite decode_ignore_ok in H. congruence. }
  split; [exact (frame_terminated _ _ Hend)|].
  auto.
Qed.

Lemma lenient_decoding_witness :
  exists text l r,
    decode Ignore (lit " /m/123" ++ [0xFF; 0xE2; 0x82] ++ lit "456/"
                     ++ [0x0D])
    = Ok text
    /\ text = flat_map (fun i => match i with
                                 | Decoded cp => [cp]
                                 | Malformed _ => []
                                 end)
                (utf8_scan (lit " /m/123" ++ [0xFF; 0xE2; 0x82] ++ lit "456/"
                              ++ [0x0D]))
    /\ (forall replaced,
          decode Replace (lit " /m/123" ++ [0xFF; 0xE2; 0x82] ++ lit "456/"
                            ++ [0x0D]) = Ok replaced ->
          List.length replaced
          = Nat.add (List.length text)
              (List.length
                 (filter is_malformed
                    (utf8_scan (lit " /m/123" ++ [0xFF; 0xE2; 0x82]
                                  ++ lit "456/" ++ [0x0D])))))
    /\ (forall t,
          decode Strict (lit " /m/123" ++ [0xFF; 0xE2; 0x82] ++ lit "456/"
                           ++ [0x0D]) = Ok t -> text = t)
    /\ frame (lit " /m/123" ++ [0xFF; 0xE2]) ([0x82] ++ lit "456/" ++ [0x0D])
       = ([], Some (Ok (strip text)))
    /\ text = l ++ strip text ++ r
    /\ forallb isspace l = true
    /\ forallb isspace r = true
    /\ (forall c t, strip text = c :: t -> isspace c = false)
    /\ (forall t c, strip text = t ++ [c] -> isspace c = false).
Proof.
  apply (lenient_decoding (lit " /m/123" ++ [0xFF; 0xE2])
                          ([0x82] ++ lit "456/" ++ [0x0D])).
  reflexivity.
Defined.

(* ------------------------------------------------------------------------- *)
(** * The pattern [/m/(\d{6,12})/] *)
(* ------------------------------------------------------------------------- *)

Lemma rmatch_repeat_O r lo s caps k :
  rmatch (Repeat r lo 0) s caps k = if Nat.eqb lo 0 then k s caps else None.
Proof. reflexivity. Qed.

Lemma rmatch_repeat_S r lo hi s caps k :
  rmatch (Repeat r lo (S hi)) s caps k =
  match rmatch r s caps
               (fun s' caps' => rmatch (Repeat r (Nat.pred lo) hi) s' caps' k)
  with
  | Some res => Some res
  | None => if Nat.eqb lo 0 then k s caps else None
  end.
Proof. reflexivity. Qed.

Lemma rmatch_seq r1 r2 s caps k :
  rmatch (Seq r1 r2) s caps k
  = rmatch r1 s caps (fun s' caps' => rmatch r2 s' caps' k).
Proof. reflexivity. Qed.

Lemma rmatch_lit_nil c caps k : rmatch (Lit c) [] caps k = None.
Proof. reflexivity. Qed.

Lemma rmatch_lit_cons c x s caps k :
  rmatch (Lit c) (x :: s) caps k = if x =? c then k s caps else None.
Proof. reflexivity. Qed.

Lemma rmatch_group r s caps k :
  rmatch (Group r) s caps k
  = rmatch r s caps
           (fun s' caps' =>
              k s' (caps' ++ [firstn (List.length s - List.length s') s])).
Proof. reflexivity. Qed.

Lemma rmatch_digit_cons x s caps k :
  rmatch Digit (x :: s) caps k = if isdecimal x then k s caps else None.
Proof. reflexivity. Qed.

(** A greedy repetition of [\d] in front of a continuation that refuses
    digits: it takes the whole run of digits or fails. *)
Lemma repeat_digit_run (k : cont) :
  (forall d s' caps', isdecimal d = true -> k (d :: s') caps' = None) ->
  forall hi lo ds rest caps,
    forallb isdecimal ds = true ->
    digits_end rest ->
    rmatch (Repeat Digit lo hi) (ds ++ rest) caps k
    = if (lo <=? List.length ds)%nat && (List.length ds <=? hi)%nat
      then k rest caps else None.
Proof.
  intros Hk. induction hi as [|hi IH]; intros lo ds rest caps Hds Hrest.
  - rewrite rmatch_repeat_O. destruct ds as [|d ds]; simpl.
    + destruct lo; reflexivity.
    + simpl in Hds. apply andb_true_iff in Hds. destruct Hds as [Hd _].
      rewrite andb_false_r. destruct (Nat.eqb lo 0); auto.
  - rewrite rmatch_repeat_S. destruct ds as [|d ds].
    + assert (Hfail : forall k', rmatch Digit ([] ++ rest) caps k' = None).
      { intros k'. simpl. destruct rest as [|x t]; [reflexivity|].
        rewrite (Hrest x t eq_refl). reflexivity. }
      rewrite Hfail. destruct lo; reflexivity.
    + simpl in Hds. apply andb_true_iff in Hds. destruct Hds as [Hd Hds].
      cbn [app]. rewrite rmatch_digit_cons, Hd, (IH _ _ _ _ Hds Hrest).
      cbn [List.length].
      replace ((lo <=? S (List.length ds))%nat)
        with ((Nat.pred lo <=? List.length ds)%nat)
        by (destruct lo; reflexivity).
      change ((S (List.length ds) <=? S hi)%nat)
        with ((List.length ds <=? hi)%nat).
      destruct ((Nat.pred lo <=? List.length ds)%nat
                && (List.length ds <=? hi)%nat).
      * destruct (k rest caps); [reflexivity|].
        rewrite (Hk _ _ _ Hd). destruct (Nat.eqb lo 0); reflexivity.
      * rewrite (Hk _ _ _ Hd). destruct (Nat.eqb lo 0); reflexivity.
Qed.

Lemma span_digits_spec (s : str) :
  s = fst (span_digits s) ++ snd (span_digits s)
  /\ forallb isdecimal (fst (span_digits s)) = true
  /\ digits_end (snd (span_digits s)).
Proof.
  induction s as [|c s (E & Hd & He)]; simpl.
  - repeat split. intros d t H. discriminate.
  - destruct (isdecimal c) eqn:Hc.
    + destruct (span_digits s) as [ds rest]. simpl in *.
      rewrite Hc, Hd, <- E. auto.
    + simpl. repeat split. intros d t H. congruence.
Qed.

Lemma span_digits_run (ds rest : str) :
  forallb isdecimal ds = true -> digits_end rest ->
  span_digits (ds ++ rest) = (ds, rest).
Proof.
  intros Hds Hrest. induction ds as [|d ds IH]; cbn [app span_digits].
  - destruct rest as [|x t]; [reflexivity|]. cbn [span_digits].
    rewrite (Hrest x t eq_refl). reflexivity.
  - cbn [forallb] in Hds. apply andb_true_iff in Hds.
    destruct Hds as [Hd Hds]. rewrite Hd, (IH Hds). reflexivity.
Qed.

Lemma firstn_run (ds rest : str) :
  firstn (List.length (ds ++ rest) - List.length rest) (ds ++ rest) = ds.
Proof.
  rewrite length_app, Nat.add_sub. rewrite firstn_app, Nat.sub_diag.
  rewrite firstn_all, firstn_O. apply app_nil_r.
Qed.

(** The matcher on the script's pattern does what [uid_here] does. *)
Lemma match_here_uid (s : str) :
  match_here UID_PATTERN s = option_map (fun ds => [ds]) (uid_here s).
Proof.
  unfold match_here, UID_PATTERN, uid_here.
  destruct s as [|c1 [|c2 [|c3 t]]];
    repeat (rewrite ?rmatch_seq, ?rmatch_lit_cons, ?rmatch_lit_nil;
            try reflexivity;
            match goal with
            | |- (if ?b then _ else _) = _ =>
              destruct b; cbn [andb]; try reflexivity
            end).
  rewrite rmatch_seq, rmatch_group.
  destruct (span_digits_spec t) as (E & Hds & Hend).
  destruct (span_digits t) as [ds rest]. cbn [fst snd] in *. subst t.
  cbv beta iota. rewrite repeat_digit_run; auto.
  - rewrite firstn_run. cbn [app].
    destruct rest as [|c rest'].
    + rewrite rmatch_lit_nil. destruct (_ && _); reflexivity.
    + rewrite rmatch_lit_cons. destruct (c =? 0x2F); cbn [andb].
      * destruct (_ && _); reflexivity.
      * destruct (_ && _); reflexivity.
  - intros d s' caps' Hd. rewrite rmatch_lit_cons.
    destruct (d =? 0x2F) eqn:Ed; [|reflexivity].
    apply Z.eqb_eq in Ed. subst d. discriminate Hd.
Qed.

Lemma search_from_uid (s : str) : forall i,
  option_map (fun m => group m 1) (search_from UID_PATTERN i s) = first_uid s.
Proof.
  induction s as [|c s IH]; intros i; cbn [search_from first_uid];
    rewrite match_here_uid; destruct (uid_here _); cbn [option_map];
      try reflexivity.
  apply IH.
Qed.

(** [extract_uid] returns what the first position where [uid_here] succeeds
    gives. *)
Lemma extract_uid_first (line : str) : extract_uid line = first_uid line.
Proof.
  unfold extract_uid, search. rewrite <- (search_from_uid line 0).
  destruct (search_from UID_PATTERN 0 line); reflexivity.
Qed.

Lemma slash_not_decimal : isdecimal 0x2F = false.
Proof. reflexivity. Qed.

Lemma decimal_not_slash (d : Z) : isdecimal d = true -> (d =? 0x2F) = false.
Proof.
  intros H. destruct (d =? 0x2F) eqn:E; [|reflexivity].
  apply Z.eqb_eq in E. subst d. discriminate H.
Qed.

Lemma decimal_not_m (d : Z) : isdecimal d = true -> (d =? 0x6D) = false.
Proof.
  intros H. destruct (d =? 0x6D) eqn:E; [|reflexivity].
  apply Z.eqb_eq in E. subst d. discriminate H.
Qed.

Lemma digits_end_slash (post : str) : digits_end (0x2F :: post).
Proof. intros d t E. injection E as <- _. reflexivity. Qed.

Lemma uid_here_prefix (t : str) :
  uid_here (0x2F :: 0x6D :: 0x2F :: t)
  = let '(ds, rest) := span_digits t in
    match rest with
    | c :: _ =>
      if (c =? 0x2F) && (6 <=? List.length ds)%nat
         && (List.length ds <=? 12)%nat
      then Some ds else None
    | [] => None
    end.
Proof. reflexivity. Qed.

Lemma uid_here_spec (s ds : str) :
  uid_here s = Some ds
  <-> exists post,
      s = lit "/m/" ++ ds ++ lit "/" ++ post
      /\ forallb isdecimal ds = true
      /\ (6 <= List.length ds <= 12)%nat.
Proof.
  split.
  - unfold uid_here. destruct s as [|c1 [|c2 [|c3 t]]]; try discriminate.
    destruct (c1 =? 0x2F) eqn:E1; [|discriminate].
    destruct (c2 =? 0x6D) eqn:E2; [|discriminate].
    destruct (c3 =? 0x2F) eqn:E3; [|discriminate]. cbn [andb].
    apply Z.eqb_eq in E1, E2, E3. subst.
    destruct (span_digits_spec t) as (E & Hds & _).
    destruct (span_digits t) as [run rest]. cbn [fst snd] in *.
    destruct rest as [|c post]; [discriminate|].
    destruct (c =? 0x2F) eqn:Ec; [|discriminate]. cbn [andb].
    destruct ((6 <=? List.length run)%nat) eqn:E6; [|discriminate].
    destruct ((List.length run <=? 12)%nat) eqn:E12; [|discriminate].
    cbn [andb]. intros H. injection H as <-.
    apply Z.eqb_eq in Ec. subst c.
    apply Nat.leb_le in E6, E12.
    exists post. rewrite E. auto.
  - intros (post & -> & Hds & H6 & H12).
    change (lit "/m/" ++ ds ++ lit "/" ++ post)
      with (0x2F :: 0x6D :: 0x2F :: ds ++ 0x2F :: post).
    rewrite uid_here_prefix.
    rewrite (span_digits_run ds (0x2F :: post) Hds (digits_end_slash post)).
    rewrite Z.eqb_refl. apply Nat.leb_le in H6, H12. rewrite H6, H12.
    reflexivity.
Qed.

Lemma candidate_O dig s ds :
  candidate dig s 0 ds
  <-> exists post,
      s = lit "/m/" ++ ds ++ lit "/" ++ post
      /\ forallb dig ds = true
      /\ (6 <= List.length ds <= 12)%nat.
Proof.
  split.
  - intros (pre & post & E & Hl & H). destruct pre; [|discriminate].
    exists post. auto.
  - intros (post & E & H). exists [], post. auto.
Qed.

Lemma candidate_S dig x s i ds :
  candidate dig (x :: s) (S i) ds <-> candidate dig s i ds.
Proof.
  split.
  - intros (pre & post & E & Hl & H). destruct pre as [|y pre]; [discriminate|].
    injection E as _ E. injection Hl as Hl. exists pre, post. auto.
  - intros (pre & post & E & Hl & H). exists (x :: pre), post.
    subst. auto.
Qed.

Lemma candidate_nil dig i ds : ~ candidate dig [] i ds.
Proof.
  intros (pre & post & E & _). destruct pre; discriminate.
Qed.

Lemma uid_here_candidate s ds :
  uid_here s = Some ds <-> candidate isdecimal s 0 ds.
Proof. rewrite uid_here_spec, candidate_O. reflexivity. Qed.

Lemma first_uid_leftmost : forall i line ds,
  candidate isdecimal line i ds ->
  (forall j ds', (j < i)%nat -> ~ candidate isdecimal line j ds') ->
  first_uid line = Some ds.
Proof.
  induction i as [|i IH]; intros line ds Hc Hleft.
  - apply uid_here_candidate in Hc.
    destruct line; cbn [first_uid]; rewrite Hc; reflexivity.
  - destruct line as [|x line]; [destruct (candidate_nil _ _ _ Hc)|].
    cbn [first_uid].
    destruct (uid_here (x :: line)) as [ds0|] eqn:E0.
    + apply uid_here_candidate in E0.
      destruct (Hleft 0%nat ds0); [lia | exact E0].
    + apply (IH line ds).
      * apply candidate_S in Hc. exact Hc.
      * intros j ds' Hj Hc'. apply (Hleft (S j) ds'); [lia|].
        apply candidate_S. exact Hc'.
Qed.

Lemma first_uid_none (line : str) :
  (forall i ds, ~ candidate isdecimal line i ds) -> first_uid line = None.
Proof.
  induction line as [|x line IH]; intros Hno.
  - reflexivity.
  - cbn [first_uid].
    destruct (uid_here (x :: line)) as [ds0|] eqn:E0.
    + apply uid_here_candidate in E0. destruct (Hno _ _ E0).
    + apply IH. intros i ds Hc. apply (Hno (S i) ds), candidate_S, Hc.
Qed.

(** The extractor meets its specification for the digits of [\d]. *)
Lemma extractor_decimal (line : str) : extractor_spec isdecimal line.
Proof.
  split.
  - intros i ds Hc Hleft. rewrite extract_uid_first.
    exact (first_uid_leftmost i line ds Hc Hleft).
  - intros Hno. rewrite extract_uid_first. exact (first_uid_none line Hno).
Qed.

Lemma ascii_digit_decimal (c : Z) :
  is_ascii_digit c = true -> isdecimal c = true.
Proof.
  intros H. unfold isdecimal, decimal_zeros. cbn [existsb].
  unfold is_ascii_digit in H. change (0x30 + 9) with 0x39. rewrite H.
  reflexivity.
Qed.

Lemma decimal_zeros_above_ascii :
  Forall (fun z => z = 0x30 \/ 0x80 <= z) decimal_zeros.
Proof.
  unfold decimal_zeros.
  repeat (constructor; [first [left; reflexivity | right; lia]|]).
  constructor.
Qed.

Lemma decimal_ascii_digit (c : Z) :
  in_range 0 0x7F c = true -> isdecimal c = true -> is_ascii_digit c = true.
Proof.
  intros Hc Hd. unfold isdecimal in Hd. apply existsb_exists in Hd.
  destruct Hd as (z & Hz & Hr).
  pose proof decimal_zeros_above_ascii as Hall.
  rewrite Forall_forall in Hall. destruct (Hall z Hz) as [->|Hbig].
  - exact Hr.
  - unfold in_range in *. apply andb_true_iff in Hc, Hr.
    destruct Hc as [_ Hc], Hr as [Hr _].
    apply Z.leb_le in Hc, Hr. lia.
Qed.

Lemma forallb_impl {A} (f g : A -> bool) (l : list A) :
  (forall x, In x l -> f x = true -> g x = true) ->
  forallb f l = true -> forallb g l = true.
Proof.
  intros H Hf. rewrite forallb_forall in *. auto.
Qed.

(** On a line of ASCII characters, the two notions of digit give the same
    candidates. *)
Lemma candidate_ascii (line : str) (i : nat) (ds : str) :
  isascii line = true ->
  (candidate is_ascii_digit line i ds <-> candidate isdecimal line i ds).
Proof.
  intros Ha. split; intros (pre & post & E & Hl & Hds & Hlen);
    exists pre, post; (split; [exact E|]); (split; [exact Hl|]);
      (split; [|exact Hlen]).
  - revert Hds. apply forallb_impl. intros x _. apply ascii_digit_decimal.
  - revert Hds. apply forallb_impl. intros x Hx. apply decimal_ascii_digit.
    unfold isascii in Ha. rewrite forallb_forall in Ha. apply Ha.
    rewrite E. apply in_or_app. right. cbn [lit app]. do 3 right.
    apply in_or_app. left. exact Hx.
Qed.

Lemma extractor_ascii (line : str) :
  isascii line = true -> extractor_spec is_ascii_digit line.
Proof.
  intros Ha. destruct (extractor_decimal line) as [Hsome Hnone]. split.
  - intros i ds Hc Hleft. apply (Hsome i ds).
    + apply (candidate_ascii line i ds Ha), Hc.
    + intros j ds' Hj Hc'. apply (Hleft j ds' Hj).
      apply (candidate_ascii line j ds' Ha), Hc'.
  - intros Hno. apply Hnone. intros i ds Hc. apply (Hno i ds).
    apply (candidate_ascii line i ds Ha), Hc.
Qed.

(** C2, as written, fails: [\d] on a [str] is any Unicode decimal digit, so
    a line with six Arabic-Indic digits and no ASCII digit gives an
    identifier. *)
Lemma non_ascii_digits_extracted :
  ~ (forall line : str, extractor_spec is_ascii_digit line).
Proof.
  intros H.
  destruct (H (lit "/m/" ++ [0x660; 0x661; 0x662; 0x663; 0x664; 0x665]
                 ++ lit "/")) as [_ Hnone].
  assert (Hex : extract_uid (lit "/m/" ++ [0x660; 0x661; 0x662; 0x663; 0x664;
                                           0x665] ++ lit "/")
                = Some [0x660; 0x661; 0x662; 0x663; 0x664; 0x665])
    by (vm_compute; reflexivity).
  rewrite Hnone in Hex; [discriminate|].
  intros i ds (pre & post & E & _ & Hds & Hlen).
  destruct ds as [|d ds]; [simpl in Hlen; lia|].
  cbn [forallb] in Hds. apply andb_true_iff in Hds. destruct Hds as [Hd _].
  assert (Hin : In d (lit "/m/" ++ [0x660; 0x661; 0x662; 0x663; 0x664; 0x665]
                        ++ lit "/")).
  { rewrite E. apply in_or_app. right. cbn [lit app]. do 3 right. left.
    reflexivity. }
  cbn [lit app In] in Hin.
  repeat (destruct Hin as [<-|Hin]; [discriminate Hd|]).
  exact Hin.
Qed.

(** C2, amended. For every line, with "digit" read as [\d] reads it (any
    Unicode decimal digit): if the line holds ["/m/"], 6 to 12 digits and
    ["/"], the extractor returns the digits of the leftmost such substring,
    and when it holds none it returns [None]. On a line of ASCII characters
    this is the claim as written, with ASCII digits. *)
Theorem extractor_leftmost_decimal (line : str) :
  extractor_spec isdecimal line
  /\ (isascii line = true -> extractor_spec is_ascii_digit line).
Proof.
  split; [apply extractor_decimal | apply extractor_ascii].
Qed.

Lemma extractor_leftmost_decimal_witness :
  extractor_spec isdecimal (lit "a/m/12345/ /m/1234567/x/m/7654321/")
  /\ extractor_spec is_ascii_digit (lit "a/m/12345/ /m/1234567/x/m/7654321/").
Proof.
  destruct (extractor_leftmost_decimal
              (lit "a/m/12345/ /m/1234567/x/m/7654321/")) as [Hd Ha].
  split; [exact Hd | apply Ha; reflexivity].
Defined.

(* ------------------------------------------------------------------------- *)
(** * Runs of more than twelve digits *)
(* ------------------------------------------------------------------------- *)

Lemma uid_here_long_run (ds post : str) :
  forallb isdecimal ds = true ->
  (13 <= List.length ds)%nat ->
  uid_here (0x2F :: 0x6D :: 0x2F :: ds ++ 0x2F :: post) = None.
Proof.
  intros Hds Hlen. rewrite uid_here_prefix.
  rewrite (span_digits_run ds (0x2F :: post) Hds (digits_end_slash post)).
  rewrite Z.eqb_refl.
  replace ((List.length ds <=? 12)%nat) with false
    by (symmetry; apply Nat.leb_gt; lia).
  rewrite andb_false_r. reflexivity.
Qed.

Lemma uid_here_not_slash (c : Z) (s : str) :
  (c =? 0x2F) = false -> uid_here (c :: s) = None.
Proof.
  intros H. unfold uid_here. destruct s as [|c2 [|c3 t]]; try reflexivity.
  rewrite H. reflexivity.
Qed.

Lemma uid_here_not_m (c1 c2 : Z) (s : str) :
  (c2 =? 0x6D) = false -> uid_here (c1 :: c2 :: s) = None.
Proof.
  intros H. unfold uid_here. destruct s as [|c3 t]; try reflexivity.
  rewrite H, andb_false_r. reflexivity.
Qed.

(** No match begins inside a run of digits. *)
Lemma first_uid_skip_digits (ds s : str) :
  forallb isdecimal ds = true -> first_uid (ds ++ s) = first_uid s.
Proof.
  induction ds as [|d ds IH]; intros Hds; [reflexivity|].
  cbn [forallb] in Hds. apply andb_true_iff in Hds. destruct Hds as [Hd Hds].
  cbn [app first_uid].
  rewrite (uid_here_not_slash d _ (decimal_not_slash d Hd)). exact (IH Hds).
Qed.

(** No match begins in ["/m/"] followed by thirteen digits or more, nor
    inside the digits: the search resumes at the ["/"] that closes them. *)
Lemma first_uid_long_run (ds post : str) :
  forallb isdecimal ds = true ->
  (13 <= List.length ds)%nat ->
  first_uid (0x2F :: 0x6D :: 0x2F :: ds ++ 0x2F :: post)
  = first_uid (0x2F :: post).
Proof.
  intros Hds Hlen.
  assert (H1 : first_uid (0x2F :: 0x6D :: 0x2F :: ds ++ 0x2F :: post)
               = first_uid (0x6D :: 0x2F :: ds ++ 0x2F :: post)).
  { cbn [first_uid]. rewrite (uid_here_long_run ds post Hds Hlen).
    reflexivity. }
  assert (H2 : first_uid (0x6D :: 0x2F :: ds ++ 0x2F :: post)
               = first_uid (0x2F :: ds ++ 0x2F :: post)).
  { cbn [first_uid]. rewrite (uid_here_not_slash 0x6D _ eq_refl).
    reflexivity. }
  assert (H3 : first_uid (0x2F :: ds ++ 0x2F :: post)
               = first_uid (ds ++ 0x2F :: post)).
  { destruct ds as [|d ds']; [simpl in Hlen; lia|].
    cbn [forallb] in Hds. apply andb_true_iff in Hds. destruct Hds as [Hd _].
    cbn [app first_uid].
    rewrite (uid_here_not_m 0x2F d _ (decimal_not_m d Hd)). reflexivity. }
  rewrite H1, H2, H3. apply first_uid_skip_digits, Hds.
Qed.

Lemma span_digits_slash (t rest : str) :
  span_digits (t ++ 0x2F :: rest)
  = (fst (span_digits t), snd (span_digits t) ++ 0x2F :: rest).
Proof.
  induction t as [|c t IH]; cbn [app span_digits fst snd].
  - rewrite slash_not_decimal. reflexivity.
  - destruct (isdecimal c); [|reflexivity].
    rewrite IH. destruct (span_digits t). reflexivity.
Qed.

(** A match that begins before a ["/m"] ends at its ["/"] at the latest. *)
Lemma uid_here_before_slash_m (c : Z) (pre rest : str) :
  uid_here ((c :: pre) ++ 0x2F :: 0x6D :: rest)
  = uid_here ((c :: pre) ++ [0x2F]).
Proof.
  destruct pre as [|c2 [|c3 t]].
  - cbn [app]. rewrite (uid_here_not_m c 0x2F _ eq_refl). reflexivity.
  - cbn [app]. unfold uid_here. cbn [span_digits].
    change (isdecimal 0x6D) with false. cbv beta iota.
    destruct ((c =? 0x2F) && (c2 =? 0x6D) && (0x2F =? 0x2F)); reflexivity.
  - cbn [app]. unfold uid_here.
    destruct ((c =? 0x2F) && (c2 =? 0x6D) && (c3 =? 0x2F)); [|reflexivity].
    rewrite !span_digits_slash.
    destruct (span_digits t) as [ds [|x r]]; reflexivity.
Qed.

Lemma first_uid_before_slash_m (pre rest : str) :
  first_uid (pre ++ 0x2F :: 0x6D :: rest)
  = match first_uid (pre ++ [0x2F]) with
    | Some uid => Some uid
    | None => first_uid (0x2F :: 0x6D :: rest)
    end.
Proof.
  induction pre as [|c pre IH]; [reflexivity|].
  change (first_uid ((c :: pre) ++ 0x2F :: 0x6D :: rest))
    with (match uid_here ((c :: pre) ++ 0x2F :: 0x6D :: rest) with
          | Some ds => Some ds
          | None => first_uid (pre ++ 0x2F :: 0x6D :: rest)
          end).
  change (first_uid ((c :: pre) ++ [0x2F]))
    with (match uid_here ((c :: pre) ++ [0x2F]) with
          | Some ds => Some ds
          | None => first_uid (pre ++ [0x2F])
          end).
  rewrite uid_here_before_slash_m, IH.
  destruct (uid_here ((c :: pre) ++ [0x2F])); reflexivity.
Qed.

(** C3, as written, fails: a line may hold a valid identifier besides the
    run of thirteen digits. *)
Lemma long_run_line_may_match :
  ~ (forall pre ds post : str,
        forallb is_ascii_digit ds = true ->
        (13 <= List.length ds)%nat ->
        extract_uid (pre ++ lit "/m/" ++ ds ++ lit "/" ++ post) = None).
Proof.
  intros H.
  specialize (H [] (lit "1234567890123") (lit "m/123456/") eq_refl).
  assert (Hlen : (13 <= List.length (lit "1234567890123"))%nat)
    by (vm_compute; lia).
  specialize (H Hlen). vm_compute in H. discriminate H.
Qed.

(** C3, amended. Where ["/m/"] is followed by thirteen digits or more and
    ["/"], the pattern does not match, and no part of the run is ever
    captured: the extractor returns what it finds in the text before (up to
    the ["/"] that opens the occurrence) or else in the text from the ["/"]
    that closes it, and nothing when neither holds an identifier. *)
Theorem long_digit_run_rejected (pre ds post : str) :
  forallb isdecimal ds = true ->
  (13 <= List.length ds)%nat ->
  match_here UID_PATTERN (lit "/m/" ++ ds ++ lit "/" ++ post) = None
  /\ extract_uid (pre ++ lit "/m/" ++ ds ++ lit "/" ++ post)
     = match extract_uid (pre ++ lit "/") with
       | Some uid => Some uid
       | None => extract_uid (lit "/" ++ post)
       end
  /\ (extract_uid (pre ++ lit "/") = None ->
      extract_uid (lit "/" ++ post) = None ->
      extract_uid (pre ++ lit "/m/" ++ ds ++ lit "/" ++ post) = None).
Proof.
  intros Hds Hlen.
  change (lit "/m/" ++ ds ++ lit "/" ++ post)
    with (0x2F :: 0x6D :: 0x2F :: ds ++ 0x2F :: post).
  change (lit "/" ++ post) with (0x2F :: post).
  change (lit "/") with [0x2F].
  assert (Heq : extract_uid (pre ++ 0x2F :: 0x6D :: 0x2F :: ds ++ 0x2F :: post)
                = match extract_uid (pre ++ [0x2F]) with
                  | Some uid => Some uid
                  | None => extract_uid (0x2F :: post)
                  end).
  { rewrite !extract_uid_first, first_uid_before_slash_m.
    rewrite (first_uid_long_run ds post Hds Hlen). reflexivity. }
  split; [|split].
  - rewrite match_here_uid, (uid_here_long_run ds post Hds Hlen). reflexivity.
  - exact Heq.
  - intros Hpre Hpost. rewrite Heq, Hpre. exact Hpost.
Qed.

Lemma long_digit_run_rejected_witness :
  match_here UID_PATTERN
    (lit "/m/" ++ lit "1234567890123" ++ lit "/" ++ lit "end") = None
  /\ extract_uid (lit "x" ++ lit "/m/" ++ lit "1234567890123" ++ lit "/"
                    ++ lit "end")
     = match extract_uid (lit "x" ++ lit "/") with
       | Some uid => Some uid
       | None => extract_uid (lit "/" ++ lit "end")
       end
  /\ (extract_uid (lit "x" ++ lit "/") = None ->
      extract_uid (lit "/" ++ lit "end") = None ->
      extract_uid (lit "x" ++ lit "/m/" ++ lit "1234567890123" ++ lit "/"
                     ++ lit "end") = None).
Proof.
  apply (long_digit_run_rejected (lit "x") (lit "1234567890123") (lit "end")).
  - reflexivity.
  - vm_compute. lia.
Defined.

(* ------------------------------------------------------------------------- *)
(** * One record through the loop *)
(* ------------------------------------------------------------------------- *)

Lemma set_buf_idem st b b' : set_buf (set_buf st b) b' = set_buf st b'.
Proof. reflexivity. Qed.

Lemma set_buf_same st : set_buf st (buf st ++ []) = st.
Proof. rewrite app_nil_r. destruct st; reflexivity. Qed.

Lemma concat_nil_inv (chunk : bytes) (rest : list bytes) :
  concat (chunk :: rest) = [] -> chunk = [] /\ concat rest = [].
Proof. cbn [concat]. apply app_eq_nil. Qed.

(** Reads that return nothing leave everything as it is. *)
Lemma loop_idle w (chunks : list bytes) : forall st,
  concat chunks = [] ->
  endswith (buf st) END_BYTES = false ->
  loop w (map Data chunks) st = (None, st, []).
Proof.
  induction chunks as [|chunk rest IH]; intros st Hc Hb; [reflexivity|].
  apply concat_nil_inv in Hc. destruct Hc as [-> Hc].
  cbn [map loop]. rewrite loop_body_pending by (rewrite app_nil_r; exact Hb).
  rewrite set_buf_same. exact (IH st Hc Hb).
Qed.

Lemma terminated_prefix (b tail record : bytes) :
  no_terminator record = true ->
  (b ++ [0x0D]) ++ tail = record ++ [0x0D] ->
  b = record /\ tail = [].
Proof.
  revert b. induction record as [|x record IH]; intros b Hno E.
  - destruct b as [|y b]; cbn [app] in E.
    + injection E as E. auto.
    + injection E as _ E. destruct b; discriminate.
  - cbn [no_terminator forallb] in Hno. apply andb_true_iff in Hno.
    destruct Hno as [Hx Hno]. destruct b as [|y b]; cbn [app] in E.
    + injection E as <- _. discriminate Hx.
    + injection E as -> E. destruct (IH b Hno E) as [-> ->]. auto.
Qed.

(** A record without terminator, followed by its terminator, however it is
    cut into reads: the loop hands over one line, that of the whole
    record. *)
Lemma loop_one_record w (record : bytes) (st1 : state) :
  no_terminator record = true ->
  forall (chunks : list bytes) (st : state),
    buf st ++ concat chunks = record ++ [0x0D] ->
    endswith (buf st) END_BYTES = false ->
    handle_line w (strip (text_of (record ++ [0x0D]))) (set_buf st [])
      = (None, st1) ->
    loop w (map Data chunks) st = (None, st1, []).
Proof.
  intros Hno. induction chunks as [|chunk rest IH]; intros st E Hb Hline.
  - cbn [concat] in E. rewrite app_nil_r in E. rewrite E in Hb.
    rewrite endswith_snoc in Hb. discriminate Hb.
  - cbn [concat] in E. rewrite app_assoc in E. cbn [map loop].
    destruct (endswith (buf st ++ chunk) END_BYTES) eqn:Hend.
    + rewrite (loop_body_terminated _ _ _ Hend).
      destruct (endswith_inv _ Hend) as (b' & Eb). rewrite Eb in E.
      destruct (terminated_prefix _ _ _ Hno E) as [-> Hrest].
      rewrite Eb, Hline. apply loop_idle; [exact Hrest|].
      pose proof (handle_line_buf w (strip (text_of (record ++ [0x0D])))
                                  (set_buf st [])) as Hbuf.
      rewrite Hline in Hbuf. cbn [snd] in Hbuf. rewrite Hbuf. reflexivity.
    + rewrite (loop_body_pending _ _ _ Hend). apply IH.
      * exact E.
      * exact Hend.
      * rewrite set_buf_idem. exact Hline.
Qed.

Lemma year_digits_four (y : Z) : 1000 <= y -> year_digits y = pad4 y.
Proof.
  intros H. unfold year_digits.
  destruct (Z.ltb_spec y 10); [lia|]. destruct (Z.ltb_spec y 100); [lia|].
  destruct (Z.ltb_spec y 1000); [lia|]. reflexivity.
Qed.

Lemma strftime_compact_valid (t : datetime) :
  valid_datetime t ->
  strftime_compact t
  = pad4 (year t) ++ pad2 (month t) ++ pad2 (day t) ++ [0x5F]
    ++ pad2 (hour t) ++ pad2 (minute t) ++ pad2 (second t).
Proof.
  intros (Hy & _). unfold strftime_compact.
  rewrite (year_digits_four _ (proj1 Hy)). reflexivity.
Qed.

Lemma strftime_compact_length (t : datetime) :
  valid_datetime t -> List.length (strftime_compact t) = 15%nat.
Proof. intros H. rewrite (strftime_compact_valid t H). reflexivity. Qed.

(** C4. The bytes [noise/m/123456/end\r], however the reads cut them, in a
    world where the port opens, the three logos load, the barcode renders,
    the clock gives a date with a year of four digits and the file can be
    written: the identifier ["123456"] is extracted, the barcode is that of
    ["UK123456"], and exactly one file is saved, in [barcodes], named
    [label_UK123456_<YYYYMMDD_HHMMSS>.png], holding an image of 543 by 248
    pixels; the loop then waits for the next scan. *)
Theorem scenario_happy_path (PORT : option str) (w : world) (port : str)
        (chunks : list bytes) (taqt weee ce barcode : image) :
  autodetect_port PORT w = Ok port ->
  serial_open w port = None ->
  load_logo w (lit "img/taqt.png") 190 = Ok taqt ->
  load_logo w (lit "img/WEEE.png") 70 = Ok weee ->
  load_logo w (lit "img/CE.png") 80 = Ok ce ->
  make_barcode w (lit "UK123456") = Ok barcode ->
  valid_datetime (now w 0) ->
  (forall img,
      compose_label w (lit "123456") = Ok img ->
      image_save w 0 (lit "label_UK123456_" ++ strftime_compact (now w 0)
                        ++ lit ".png") img = None) ->
  concat chunks = lit "noise/m/123456/end" ++ [0x0D] ->
  exists (img : image) (st : state),
    main PORT w (map Data chunks) = (Waiting, st, [])
    /\ extract_uid (strip (text_of (concat chunks))) = Some (lit "123456")
    /\ PREFIX ++ lit "123456" = lit "UK123456"
    /\ compose_label w (lit "123456") = Ok img
    /\ In (Paste barcode MARGIN (LABEL_H - height barcode - MARGIN) false)
          (made img)
    /\ files st = [(lit "barcodes",
                    lit "label_UK123456_" ++ strftime_compact (now w 0)
                    ++ lit ".png",
                    img)]
    /\ List.length (strftime_compact (now w 0)) = 15%nat
    /\ width img = 543 /\ height img = 248
    /\ buf st = [].
Proof.
  intros Hport Hopen Ht Hw Hc Hb Hnow Hsave Hchunks.
  destruct (compose_label_ok w (lit "123456") _ _ _ _ Ht Hw Hc Hb)
    as (img & Himg & Hpaste).
  pose proof (compose_label_returns_canvas _ _ _ Himg) as Hsize.
  unfold size in Hsize. injection Hsize as Hwidth Hheight.
  assert (Hline : strip (text_of (lit "noise/m/123456/end" ++ [0x0D]))
                  = lit "noise/m/123456/end") by (vm_compute; reflexivity).
  assert (Huid : extract_uid (lit "noise/m/123456/end") = Some (lit "123456"))
    by (vm_compute; reflexivity).
  pose proof (Hsave img Himg) as Hwritten.
  eexists img, _. split.
  { unfold main. rewrite Hport, Hopen.
    erewrite (loop_one_record w (lit "noise/m/123456/end"));
      [reflexivity | reflexivity | exact Hchunks | reflexivity |].
    rewrite Hline. unfold handle_line. rewrite Huid, Himg.
    match goal with
    | |- context [image_save w ?k ?name img] =>
      change (image_save w k name img)
        with (image_save w 0 (lit "label_UK123456_"
                                ++ strftime_compact (now w 0) ++ lit ".png")
                         img)
    end.
    rewrite Hwritten. reflexivity. }
  rewrite Hchunks, Hline.
  pose proof (strftime_compact_length _ Hnow) as Hlen.
  repeat split; auto.
Qed.

Lemma scenario_happy_path_witness :
  exists (img : image) (st : state),
    main None sample_world
         (map Data [lit "noise/m/12"; []; lit "3456/end" ++ [0x0D]; []])
    = (Waiting, st, [])
    /\ extract_uid
         (strip (text_of (concat [lit "noise/m/12"; [];
                                  lit "3456/end" ++ [0x0D]; []])))
       = Some (lit "123456")
    /\ PREFIX ++ lit "123456" = lit "UK123456"
    /\ compose_label sample_world (lit "123456") = Ok img
    /\ In (Paste (mk_image Bilevel 330 110
                    [New (Level 1);
                     Paste (mk_image Bilevel 330 80
                              [Symbol (lit "code128") (lit "UK123456")
                                      BAR_OPTIONS;
                               Convert Bilevel]) 0 0 false;
                     Text 113 84 (lit "UK123456") FONT_BAR (Level 0)])
                 MARGIN (LABEL_H - 110 - MARGIN) false)
          (made img)
    /\ files st = [(lit "barcodes",
                    lit "label_UK123456_"
                    ++ strftime_compact (now sample_world 0) ++ lit ".png",
                    img)]
    /\ List.length (strftime_compact (now sample_world 0)) = 15%nat
    /\ width img = 543 /\ height img = 248
    /\ buf st = [].
Proof.
  eapply (scenario_happy_path None sample_world (lit "COM4")
            [lit "noise/m/12"; []; lit "3456/end" ++ [0x0D]; []]).
  - vm_compute. reflexivity.
  - vm_compute. reflexivity.
  - vm_compute. reflexivity.
  - vm_compute. reflexivity.
  - vm_compute. reflexivity.
  - vm_compute. reflexivity.
  - unfold valid_datetime. cbn. lia.
  - intros img _. reflexivity.
  - vm_compute. reflexivity.
Defined.

(* ------------------------------------------------------------------------- *)
(** * The pending buffer *)
(* ------------------------------------------------------------------------- *)

Lemma loop_body_no_terminator w chunk st :
  no_terminator (buf st) = true ->
  terminator_last chunk = true ->
  no_terminator (buf (snd (loop_body w chunk st))) = true.
Proof.
  intros Hb Hchunk.
  destruct (terminator_last_cases chunk Hchunk) as [Hno|(body & -> & Hno)].
  - assert (Hbc : no_terminator (buf st ++ chunk) = true)
      by (rewrite no_terminator_app, Hb, Hno; reflexivity).
    rewrite (loop_body_pending _ _ _ (no_terminator_unterminated _ Hbc)).
    exact Hbc.
  - rewrite loop_body_terminated
      by (rewrite app_assoc, endswith_snoc; reflexivity).
    rewrite handle_line_buf. reflexivity.
Qed.

Lemma loop_no_terminator w reads : forall st,
  no_terminator (buf st) = true ->
  Forall tidy_read reads ->
  no_terminator (buf (snd (fst (loop w reads st)))) = true.
Proof.
  induction reads as [|[chunk|e] rest IH]; intros st Hb Hall;
    cbn [loop fst snd]; auto.
  inversion Hall as [|? ? Hchunk Hrest]; subst.
  pose proof (loop_body_no_terminator w chunk st Hb Hchunk) as Hstep.
  destruct (loop_body w chunk st) as [[e|] st']; cbn [fst snd] in *; auto.
Qed.

Lemma main_no_terminator PORT w reads :
  Forall tidy_read reads ->
  no_terminator (buf (snd (fst (main PORT w reads)))) = true.
Proof.
  intros Hall. unfold main.
  destruct (autodetect_port PORT w) as [port|e]; [|reflexivity].
  destruct (serial_open w port) as [e|].
  - pose proof (handlers_buf e (logging INFO (greeting port) initial)) as Hh.
    destruct (handlers e _) as [o st']. cbn [fst snd] in *.
    rewrite Hh, logging_buf. reflexivity.
  - pose proof (loop_no_terminator w reads
                  (open_port port (logging INFO (greeting port) initial))
                  eq_refl Hall) as Hl.
    destruct (loop w reads _) as [[[e|] st'] rest]; cbn [fst snd] in *; auto.
    pose proof (handlers_buf e st') as Hh.
    destruct (handlers e st') as [o st'']. cbn [fst snd] in *. congruence.
Qed.

(** C9, as written, fails: three reads that each bring a byte after a
    terminator leave three complete records in the buffer, none of them
    handed over, and the loop still waiting. *)
Lemma buffer_may_hold_complete_records :
  ~ (forall (PORT : option str) (w : world) (reads : list read_event),
        no_terminator (buf (snd (fst (main PORT w reads)))) = true).
Proof.
  intros H.
  specialize (H None sample_world
                [Data (lit "a/m/111111/" ++ [0x0D] ++ lit "b");
                 Data (lit "c/m/222222/" ++ [0x0D] ++ lit "d");
                 Data (lit "e/m/333333/" ++ [0x0D] ++ lit "f")]).
  vm_compute in H. discriminate H.
Qed.

(** C9, amended. Each time the buffer, after a read, ends with the
    terminator, it is empty at the end of that turn of the loop, whether the
    line gave an identifier or not (and even when composing or saving the
    label fails); when it does not end with the terminator it keeps exactly
    the bytes read so far. Hence at every turn boundary, and in the final
    state of any run of [main], the buffer does not end with the terminator;
    and it holds no terminator at all (at most the bytes of one pending
    line) when no read returned bytes after a terminator. *)
Theorem buffer_reset_invariant (PORT : option str) (w : world)
        (reads : list read_event) (chunk : bytes) (st : state) :
  (endswith (buf st ++ chunk) END_BYTES = true ->
     buf (snd (loop_body w chunk st)) = [])
  /\ (endswith (buf st ++ chunk) END_BYTES = false ->
     buf (snd (loop_body w chunk st)) = buf st ++ chunk)
  /\ endswith (buf (snd (loop_body w chunk st))) END_BYTES = false
  /\ endswith (buf (snd (fst (main PORT w reads)))) END_BYTES = false
  /\ (Forall tidy_read reads ->
      no_terminator (buf (snd (fst (main PORT w reads)))) = true).
Proof.
  repeat split.
  - intros H. rewrite (loop_body_terminated _ _ _ H), handle_line_buf.
    reflexivity.
  - intros H. rewrite (loop_body_pending _ _ _ H). reflexivity.
  - apply loop_body_unterminated.
  - apply main_unterminated.
  - apply main_no_terminator.
Qed.

(* ------------------------------------------------------------------------- *)
(** * More on the graphics: logos, barcode, layout *)
(* ------------------------------------------------------------------------- *)

Lemma bind_Raise {A B} (r : result A) (k : A -> result B) (e : exn) :
  r = Raise e -> bind r k = Raise e.
Proof. intros ->. reflexivity. Qed.

Lemma resize_Ok i sz img :
  resize i sz = Ok img ->
  img = mk_image (img_mode i) (fst sz) (snd sz)
                 (made i ++ [Resize (fst sz) (snd sz)])
  /\ 1 <= fst sz /\ 1 <= snd sz.
Proof.
  destruct sz as [x y]. unfold resize.
  destruct (x <? 1) eqn:Ex; [discriminate|].
  destruct (y <? 1) eqn:Ey; [discriminate|]. cbn [orb fst snd].
  apply Z.ltb_ge in Ex, Ey. intros H. injection H as <-. auto.
Qed.

Lemma load_logo_inv (w : world) (path : str) (width_px : Z) (img : image) :
  load_logo w path width_px = Ok img ->
  exists opened,
    image_open w path = Ok opened
    /\ img_mode img = RGBA
    /\ width img = width_px
    /\ (width opened = width_px ->
        img = convert opened RGBA /\ height img = height opened)
    /\ (width opened <> width_px -> 1 <= width_px /\ 1 <= height img).
Proof.
  unfold load_logo. intros H.
  apply bind_Ok in H. destruct H as (opened & Hopen & H).
  exists opened. split; [exact Hopen|].
  change (width (convert opened RGBA)) with (width opened) in H.
  destruct (width opened =? width_px) eqn:Ew; cbn [negb] in H.
  - apply Z.eqb_eq in Ew. injection H as <-.
    split; [reflexivity|]. split; [exact Ew|]. split.
    + intros _. split; reflexivity.
    + intros Hne. contradiction.
  - apply Z.eqb_neq in Ew.
    apply bind_Ok in H. destruct H as (ratio & _ & H).
    apply bind_Ok in H. destruct H as (h & _ & H).
    apply resize_Ok in H. cbn [fst snd] in H. destruct H as (-> & Hw & Hh).
    split; [reflexivity|]. split; [reflexivity|]. split.
    + intros E. contradiction.
    + intros _. split; assumption.
Qed.

(** X1. When [load_logo] returns, the image is RGBA and exactly
    [width_px] wide. A file that already has that width keeps its height;
    any other file is resized to a height of at least one pixel (and the
    target width is then positive). *)
Theorem load_logo_result (w : world) (path : str) (width_px : Z)
        (img : image) :
  load_logo w path width_px = Ok img ->
  exists opened,
    image_open w path = Ok opened
    /\ img_mode img = RGBA
    /\ width img = width_px
    /\ (width opened = width_px ->
        img = convert opened RGBA /\ height img = height opened)
    /\ (width opened <> width_px -> 1 <= width_px /\ 1 <= height img).
Proof. apply load_logo_inv. Qed.

Lemma load_logo_result_witness :
  exists opened,
    image_open sample_world (lit "img/WEEE.png") = Ok opened
    /\ img_mode (mk_image RGBA 70 23
                   [Opened (lit "img/WEEE.png"); Convert RGBA; Resize 70 23])
       = RGBA
    /\ width (mk_image RGBA 70 23
                [Opened (lit "img/WEEE.png"); Convert RGBA; Resize 70 23])
       = 70
    /\ (width opened = 70 ->
        mk_image RGBA 70 23
                 [Opened (lit "img/WEEE.png"); Convert RGBA; Resize 70 23]
        = convert opened RGBA
        /\ height (mk_image RGBA 70 23
                     [Opened (lit "img/WEEE.png"); Convert RGBA; Resize 70 23])
           = height opened)
    /\ (width opened <> 70 ->
        1 <= 70
        /\ 1 <= height (mk_image RGBA 70 23
                          [Opened (lit "img/WEEE.png"); Convert RGBA;
                           Resize 70 23])).
Proof.
  apply (load_logo_result sample_world (lit "img/WEEE.png") 70).
  vm_compute. reflexivity.
Defined.

Lemma Image_new_Ok m sz c img :
  Image_new m sz c = Ok img ->
  img = mk_image m (fst sz) (snd sz) [New c] /\ 0 <= fst sz /\ 0 <= snd sz.
Proof.
  destruct sz as [x y]. unfold Image_new.
  destruct (x <? 0) eqn:Ex; [discriminate|].
  destruct (y <? 0) eqn:Ey; [discriminate|]. cbn [orb fst snd].
  apply Z.ltb_ge in Ex, Ey. intros H. injection H as <-. auto.
Qed.

(** X2. When [make_barcode] returns, the raster is bilevel, as wide as the
    symbol and [h_txt + 8] pixels taller; it holds the symbol at the top left
    and the payload as caption 4 pixels under the symbol, centred on the
    symbol's width to the pixel (so a caption wider than the symbol starts
    left of the raster). *)
Theorem make_barcode_result (w : world) (code : str) (img : image) :
  make_barcode w code = Ok img ->
  exists generated x,
    generate_barcode w (lit "code128") code BAR_OPTIONS = Ok generated
    /\ img_mode img = Bilevel
    /\ width img = width generated
    /\ height img
       = height generated + snd (getbbox w FONT_BAR code) + 8
    /\ made img
       = [New (Level 1);
          Paste (convert generated Bilevel) 0 0 false;
          Text x (height generated + 4) code FONT_BAR (Level 0)]
    /\ 0 <= width generated - snd (fst (getbbox w FONT_BAR code)) - 2 * x <= 1.
Proof.
  unfold make_barcode. intros H.
  apply bind_Ok in H. destruct H as (generated & Hgen & H).
  destruct (getbbox w FONT_BAR code) as [[[l t] w_txt] h_txt].
  apply bind_Ok in H. destruct H as (canvas & Hnew & H).
  apply Image_new_Ok in Hnew. destruct Hnew as (-> & _ & _).
  injection H as <-.
  exists generated, ((width generated - w_txt) / 2).
  cbn [fst snd]. repeat split; auto.
  - pose proof (Z.div_mod (width generated - w_txt) 2 ltac:(lia)).
    pose proof (Z.mod_pos_bound (width generated - w_txt) 2 ltac:(lia)).
    change (width (convert generated Bilevel)) with (width generated). lia.
  - pose proof (Z.div_mod (width generated - w_txt) 2 ltac:(lia)).
    pose proof (Z.mod_pos_bound (width generated - w_txt) 2 ltac:(lia)).
    change (width (convert generated Bilevel)) with (width generated). lia.
Qed.

Lemma make_barcode_result_witness :
  exists generated x,
    generate_barcode sample_world (lit "code128") (lit "UK1234567")
                     BAR_OPTIONS = Ok generated
    /\ img_mode (mk_image Bilevel 363 110
                   [New (Level 1);
                    Paste (mk_image Bilevel 363 80
                             [Symbol (lit "code128") (lit "UK1234567")
                                     BAR_OPTIONS; Convert Bilevel]) 0 0 false;
                    Text 123 84 (lit "UK1234567") FONT_BAR (Level 0)])
       = Bilevel
    /\ width (mk_image Bilevel 363 110
                [New (Level 1);
                 Paste (mk_image Bilevel 363 80
                          [Symbol (lit "code128") (lit "UK1234567")
                                  BAR_OPTIONS; Convert Bilevel]) 0 0 false;
                 Text 123 84 (lit "UK1234567") FONT_BAR (Level 0)])
       = width generated
    /\ height (mk_image Bilevel 363 110
                 [New (Level 1);
                  Paste (mk_image Bilevel 363 80
                           [Symbol (lit "code128") (lit "UK1234567")
                                   BAR_OPTIONS; Convert Bilevel]) 0 0 false;
                  Text 123 84 (lit "UK1234567") FONT_BAR (Level 0)])
       = height generated
         + snd (getbbox sample_world FONT_BAR (lit "UK1234567")) + 8
    /\ made (mk_image Bilevel 363 110
               [New (Level 1);
                Paste (mk_image Bilevel 363 80
                         [Symbol (lit "code128") (lit "UK1234567")
                                 BAR_OPTIONS; Convert Bilevel]) 0 0 false;
                Text 123 84 (lit "UK1234567") FONT_BAR (Level 0)])
       = [New (Level 1);
          Paste (convert generated Bilevel) 0 0 false;
          Text x (height generated + 4) (lit "UK1234567") FONT_BAR (Level 0)]
    /\ 0 <= width generated
            - snd (fst (getbbox sample_world FONT_BAR (lit "UK1234567")))
            - 2 * x <= 1.
Proof.
  apply (make_barcode_result sample_world (lit "UK1234567")).
  vm_compute. reflexivity.
Defined.

Lemma compose_label_Ok_inv w uid img :
  compose_label w uid = Ok img ->
  exists taqt weee ce barcode,
    load_logo w (lit "img/taqt.png") 190 = Ok taqt
    /\ load_logo w (lit "img/WEEE.png") 70 = Ok weee
    /\ load_logo w (lit "img/CE.png") 80 = Ok ce
    /\ make_barcode w (PREFIX ++ uid) = Ok barcode
    /\ made img
       = [New (Named (lit "white"));
          Text MARGIN MARGIN TEXT1 FONT_BIG (Level 0);
          Text MARGIN (MARGIN + 38) TEXT2 FONT_MED (Level 0);
          Paste taqt (LABEL_W - width taqt - MARGIN) MARGIN true;
          Paste weee (LABEL_W - (width weee + 4 + width ce) - MARGIN)
                (LABEL_H - Z.max (height weee) (height ce) - MARGIN) true;
          Paste ce (LABEL_W - (width weee + 4 + width ce) - MARGIN
                    + width weee + 4)
                (LABEL_H - Z.max (height weee) (height ce) - MARGIN) true;
          Paste barcode MARGIN (LABEL_H - height barcode - MARGIN) false].
Proof.
  unfold compose_label.
  change (Image_new RGB (LABEL_W, LABEL_H) (Named (lit "white")))
    with (Ok (mk_image RGB LABEL_W LABEL_H [New (Named (lit "white"))])).
  cbv beta iota delta [bind].
  destruct (load_logo w (lit "img/taqt.png") 190) as [taqt|]; [|discriminate].
  destruct (load_logo w (lit "img/WEEE.png") 70) as [weee|]; [|discriminate].
  destruct (load_logo w (lit "img/CE.png") 80) as [ce|]; [|discriminate].
  destruct (make_barcode w (PREFIX ++ uid)) as [barcode|]; [|discriminate].
  intros H. injection H as <-. exists taqt, weee, ce, barcode.
  repeat split.
Qed.

(** X3. The layout of a label that [compose_label] returns. The two texts
    are at (16, 16) and (16, 54). The three logos always stand at the same
    abscissas, whatever the files hold: the first at x = 337 with its top at
    y = 16, the pair at x = 373 and x = 447, 4 pixels apart, the right edge
    of the pair and of the first logo 16 pixels from the right edge of the
    canvas; the taller logo of the pair ends 16 pixels above the bottom. The
    barcode raster, not resized, starts at x = 16 and ends 16 pixels above
    the bottom, wherever its top and right edges fall. *)
Theorem compose_label_layout (w : world) (uid : str) (img : image) :
  compose_label w uid = Ok img ->
  exists taqt weee ce barcode y,
    make_barcode w (lit "UK" ++ uid) = Ok barcode
    /\ made img
       = [New (Named (lit "white"));
          Text 16 16 (lit "UBIQOD KEY") FONT_BIG (Level 0);
          Text 16 54 (lit "P/N : SKPF000252") FONT_MED (Level 0);
          Paste taqt 337 16 true;
          Paste weee 373 y true;
          Paste ce 447 y true;
          Paste barcode 16 (232 - height barcode) false]
    /\ width taqt = 190 /\ width weee = 70 /\ width ce = 80
    /\ 337 + width taqt = 543 - 16
    /\ 373 + width weee + 4 = 447
    /\ 447 + width ce = 543 - 16
    /\ y + Z.max (height weee) (height ce) = 248 - 16
    /\ (232 - height barcode) + height barcode = 248 - 16.
Proof.
  intros H.
  destruct (compose_label_Ok_inv w uid img H)
    as (taqt & weee & ce & barcode & Ht & Hw & Hc & Hb & Hmade).
  destruct (load_logo_inv _ _ _ _ Ht) as (_ & _ & _ & Wt & _).
  destruct (load_logo_inv _ _ _ _ Hw) as (_ & _ & _ & Ww & _).
  destruct (load_logo_inv _ _ _ _ Hc) as (_ & _ & _ & Wc & _).
  exists taqt, weee, ce, barcode,
    (LABEL_H - Z.max (height weee) (height ce) - MARGIN).
  split; [exact Hb|]. split.
  - rewrite Hmade, Wt, Ww, Wc. unfold LABEL_W, LABEL_H, MARGIN.
    repeat (f_equal; try lia).
  - unfold LABEL_H, MARGIN. repeat split; lia.
Qed.

Lemma compose_label_layout_witness :
  exists taqt weee ce barcode y,
    make_barcode sample_world (lit "UK" ++ lit "123456789012") = Ok barcode
    /\ made (get blank (compose_label sample_world (lit "123456789012")))
       = [New (Named (lit "white"));
          Text 16 16 (lit "UBIQOD KEY") FONT_BIG (Level 0);
          Text 16 54 (lit "P/N : SKPF000252") FONT_MED (Level 0);
          Paste taqt 337 16 true;
          Paste weee 373 y true;
          Paste ce 447 y true;
          Paste barcode 16 (232 - height barcode) false]
    /\ width taqt = 190 /\ width weee = 70 /\ width ce = 80
    /\ 337 + width taqt = 543 - 16
    /\ 373 + width weee + 4 = 447
    /\ 447 + width ce = 543 - 16
    /\ y + Z.max (height weee) (height ce) = 248 - 16
    /\ (232 - height barcode) + height barcode = 248 - 16.
Proof.
  apply (compose_label_layout sample_world (lit "123456789012")).
  vm_compute. reflexivity.
Defined.

(** X4. [compose_label] returns exactly when the three logos load and the
    barcode is made; otherwise it raises the exception of the first step
    that fails, in the order [taqt], [WEEE], [CE], barcode. An exception of
    the renderer is the one [make_barcode] raises. *)
Theorem compose_label_first_failure (w : world) (uid : str) :
  ((exists img, compose_label w uid = Ok img)
   <-> exists taqt weee ce barcode,
       load_logo w (lit "img/taqt.png") 190 = Ok taqt
       /\ load_logo w (lit "img/WEEE.png") 70 = Ok weee
       /\ load_logo w (lit "img/CE.png") 80 = Ok ce
       /\ make_barcode w (PREFIX ++ uid) = Ok barcode)
  /\ (forall e,
        load_logo w (lit "img/taqt.png") 190 = Raise e ->
        compose_label w uid = Raise e)
  /\ (forall taqt e,
        load_logo w (lit "img/taqt.png") 190 = Ok taqt ->
        load_logo w (lit "img/WEEE.png") 70 = Raise e ->
        compose_label w uid = Raise e)
  /\ (forall taqt weee e,
        load_logo w (lit "img/taqt.png") 190 = Ok taqt ->
        load_logo w (lit "img/WEEE.png") 70 = Ok weee ->
        load_logo w (lit "img/CE.png") 80 = Raise e ->
        compose_label w uid = Raise e)
  /\ (forall taqt weee ce e,
        load_logo w (lit "img/taqt.png") 190 = Ok taqt ->
        load_logo w (lit "img/WEEE.png") 70 = Ok weee ->
        load_logo w (lit "img/CE.png") 80 = Ok ce ->
        make_barcode w (PREFIX ++ uid) = Raise e ->
        compose_label w uid = Raise e)
  /\ (forall code e,
        generate_barcode w (lit "code128") code BAR_OPTIONS = Raise e ->
        make_barcode w code = Raise e).
Proof.
  split; [split|].
  - intros (img & H).
    destruct (compose_label_Ok_inv w uid img H)
      as (taqt & weee & ce & barcode & Ht & Hw & Hc & Hb & _).
    exists taqt, weee, ce, barcode. auto.
  - intros (taqt & weee & ce & barcode & Ht & Hw & Hc & Hb).
    destruct (compose_label_ok w uid _ _ _ _ Ht Hw Hc Hb) as (img & H & _).
    exists img. exact H.
  - unfold compose_label.
    change (Image_new RGB (LABEL_W, LABEL_H) (Named (lit "white")))
      with (Ok (mk_image RGB LABEL_W LABEL_H [New (Named (lit "white"))])).
    cbv beta iota delta [bind].
    repeat split.
    + intros e ->. reflexivity.
    + intros taqt e -> ->. reflexivity.
    + intros taqt weee e -> -> ->. reflexivity.
    + intros taqt weee ce e -> -> -> ->. reflexivity.
    + intros code e H. unfold make_barcode. rewrite H. reflexivity.
Qed.

(* ------------------------------------------------------------------------- *)
(** * More on the loop: what stops it and what does not *)
(* ------------------------------------------------------------------------- *)

Lemma main_running PORT w port reads :
  autodetect_port PORT w = Ok port ->
  serial_open w port = None ->
  main PORT w reads
  = match loop w reads
            (open_port port (logging INFO (greeting port) initial)) with
    | (Some e, st', rest) =>
      let '(o, st'') := handlers e st' in (o, st'', rest)
    | (None, st', rest) => (Waiting, st', rest)
    end.
Proof. intros Hp Ho. unfold main. rewrite Hp, Ho. reflexivity. Qed.

Lemma handlers_interrupt e st :
  exn_cls e = KeyboardInterrupt ->
  handlers e st
  = (Returned,
     logging INFO ([0x0A] ++ lit "Arr" ++ [0xEA] ++ lit "t demand"
                   ++ [0xE9] ++ lit ".") st).
Proof. intros H. unfold handlers. rewrite H. reflexivity. Qed.

Lemma loop_read_raises w before e after st0 st :
  loop w before st0 = (None, st, []) ->
  loop w (before ++ ReadRaises e :: after) st0 = (Some e, st, after).
Proof. intros H. rewrite loop_app, H. reflexivity. Qed.

(** X5. Ctrl-C while the loop waits for bytes: [main] logs the farewell at
    level INFO and returns, so the process ends with status 0. The files
    saved so far stay as they are, the bytes pending in the buffer are not
    processed, and the reads that follow are not consumed. *)
Theorem interrupt_ends_cleanly (PORT : option str) (w : world) (port : str)
        (before after : list read_event) (st : state) (e : exn) :
  autodetect_port PORT w = Ok port ->
  serial_open w port = None ->
  loop w before (open_port port (logging INFO (greeting port) initial))
    = (None, st, []) ->
  exn_cls e = KeyboardInterrupt ->
  exists st',
    main PORT w (before ++ ReadRaises e :: after) = (Returned, st', after)
    /\ exit_status Returned = Some 0
    /\ files st' = files st
    /\ buf st' = buf st
    /\ log st' = log st ++ [(INFO, [0x0A] ++ lit "Arr" ++ [0xEA]
                                     ++ lit "t demand" ++ [0xE9] ++ lit ".")].
Proof.
  intros Hp Ho Hbefore He. eexists.
  rewrite (main_running _ _ _ _ Hp Ho), (loop_read_raises _ _ _ _ _ _ Hbefore).
  rewrite (handlers_interrupt _ _ He). repeat split.
Qed.

Lemma interrupt_ends_cleanly_witness :
  exists st',
    main None sample_world
         ([Data (lit "/m/7654321/" ++ [0x0D]); Data (lit "/m/12")]
            ++ ReadRaises (mk_exn KeyboardInterrupt [])
            :: [Data (lit "3456/" ++ [0x0D])])
    = (Returned, st', [Data (lit "3456/" ++ [0x0D])])
    /\ exit_status Returned = Some 0
    /\ files st'
       = files (snd (fst (loop sample_world
                            [Data (lit "/m/7654321/" ++ [0x0D]);
                             Data (lit "/m/12")]
                            (open_port (lit "COM4")
                               (logging INFO (greeting (lit "COM4"))
                                        initial)))))
    /\ buf st'
       = buf (snd (fst (loop sample_world
                          [Data (lit "/m/7654321/" ++ [0x0D]);
                           Data (lit "/m/12")]
                          (open_port (lit "COM4")
                             (logging INFO (greeting (lit "COM4"))
                                      initial)))))
    /\ log st'
       = log (snd (fst (loop sample_world
                          [Data (lit "/m/7654321/" ++ [0x0D]);
                           Data (lit "/m/12")]
                          (open_port (lit "COM4")
                             (logging INFO (greeting (lit "COM4"))
                                      initial)))))
         ++ [(INFO, [0x0A] ++ lit "Arr" ++ [0xEA] ++ lit "t demand"
                      ++ [0xE9] ++ lit ".")].
Proof.
  apply (interrupt_ends_cleanly None sample_world (lit "COM4")
           [Data (lit "/m/7654321/" ++ [0x0D]); Data (lit "/m/12")]
           [Data (lit "3456/" ++ [0x0D])]);
    vm_compute; reflexivity.
Defined.

(** X6. A read that fails with an exception (any subclass of [Exception],
    such as the port being unplugged) ends the run like a failed
    composition: the message is logged at level ERROR and the process exits
    with status 1; the files saved before stay, the reads that follow are not
    consumed. *)
Theorem read_failure_exits (PORT : option str) (w : world) (port : str)
        (before after : list read_event) (st : state) (e : exn) :
  autodetect_port PORT w = Ok port ->
  serial_open w port = None ->
  loop w before (open_port port (logging INFO (greeting port) initial))
    = (None, st, []) ->
  is_Exception e = true ->
  exists st',
    main PORT w (before ++ ReadRaises e :: after) = (SysExit 1, st', after)
    /\ exit_status (SysExit 1) = Some 1
    /\ files st' = files st
    /\ log st' = log st ++ [(ERROR, lit "Erreur : " ++ exn_msg e)].
Proof.
  intros Hp Ho Hbefore He. eexists.
  rewrite (main_running _ _ _ _ Hp Ho), (loop_read_raises _ _ _ _ _ _ Hbefore).
  rewrite (handlers_Exception _ _ He). repeat split.
Qed.

Lemma read_failure_exits_witness :
  exists st',
    main None sample_world
         ([Data (lit "/m/7654321/" ++ [0x0D])]
            ++ ReadRaises (mk_exn OSError (lit "device disconnected"))
            :: [Data (lit "/m/123456/" ++ [0x0D])])
    = (SysExit 1, st', [Data (lit "/m/123456/" ++ [0x0D])])
    /\ exit_status (SysExit 1) = Some 1
    /\ files st'
       = files (snd (fst (loop sample_world
                            [Data (lit "/m/7654321/" ++ [0x0D])]
                            (open_port (lit "COM4")
                               (logging INFO (greeting (lit "COM4"))
                                        initial)))))
    /\ log st'
       = log (snd (fst (loop sample_world
                          [Data (lit "/m/7654321/" ++ [0x0D])]
                          (open_port (lit "COM4")
                             (logging INFO (greeting (lit "COM4"))
                                      initial)))))
         ++ [(ERROR, lit "Erreur : " ++ lit "device disconnected")].
Proof.
  apply (read_failure_exits None sample_world (lit "COM4")
           [Data (lit "/m/7654321/" ++ [0x0D])]
           [Data (lit "/m/123456/" ++ [0x0D])]);
    vm_compute; reflexivity.
Defined.

(** X7. A port that is selected but cannot be opened: nothing is read and
    nothing is saved; the greeting and then the error are logged, and the
    process exits with status 1. *)
Theorem open_failure_exits (PORT : option str) (w : world) (port : str)
        (reads : list read_event) (e : exn) :
  autodetect_port PORT w = Ok port ->
  serial_open w port = Some e ->
  is_Exception e = true ->
  exists st',
    main PORT w reads = (SysExit 1, st', reads)
    /\ exit_status (SysExit 1) = Some 1
    /\ files st' = []
    /\ opened st' = None
    /\ log st' = [(INFO, greeting port);
                  (ERROR, lit "Erreur : " ++ exn_msg e)].
Proof.
  intros Hp Ho He. eexists. unfold main. rewrite Hp, Ho.
  rewrite (handlers_Exception _ _ He). repeat split.
Qed.

Lemma open_failure_exits_witness :
  exists st',
    main None world_port_busy [Data (lit "/m/123456/" ++ [0x0D])]
    = (SysExit 1, st', [Data (lit "/m/123456/" ++ [0x0D])])
    /\ exit_status (SysExit 1) = Some 1
    /\ files st' = []
    /\ opened st' = None
    /\ log st' = [(INFO, greeting (lit "COM4"));
                  (ERROR, lit "Erreur : "
                            ++ exn_msg (mk_exn OSError
                                          (lit "could not open port "
                                             ++ lit "COM4")))].
Proof.
  apply (open_failure_exits None world_port_busy (lit "COM4")
           [Data (lit "/m/123456/" ++ [0x0D])]);
    vm_compute; reflexivity.
Defined.



(* ------------------------------------------------------------------------- *)
(** * More on the loop: turns that save nothing, and what a run saves *)
(* ------------------------------------------------------------------------- *)

(** X9. A completed line in which the pattern finds nothing: the turn only
    empties the buffer. No file is saved, the clock is not read, nothing is
    raised, and with the log level of the script (INFO) the "ignored"
    message, sent at level DEBUG, is not emitted. *)
Theorem ignored_line_is_silent (w : world) (chunk : bytes) (st : state) :
  endswith (buf st ++ chunk) END_BYTES = true ->
  extract_uid (strip (text_of (buf st ++ chunk))) = None ->
  loop_body w chunk st = (None, set_buf st [])
  /\ files (snd (loop_body w chunk st)) = files st
  /\ log (snd (loop_body w chunk st)) = log st
  /\ clock (snd (loop_body w chunk st)) = clock st.
Proof.
  intros Hend Hnone.
  assert (H : loop_body w chunk st = (None, set_buf st [])).
  { rewrite (loop_body_terminated _ _ _ Hend). unfold handle_line.
    rewrite Hnone. reflexivity. }
  rewrite H. repeat split.
Qed.

Lemma ignored_line_is_silent_witness :
  loop_body sample_world (lit "bage" ++ [0x0D])
            (mk_state (lit "gar") [] [] 0 (Some (lit "COM4")))
  = (None, set_buf (mk_state (lit "gar") [] [] 0 (Some (lit "COM4"))) [])
  /\ files (snd (loop_body sample_world (lit "bage" ++ [0x0D])
                   (mk_state (lit "gar") [] [] 0 (Some (lit "COM4"))))) = []
  /\ log (snd (loop_body sample_world (lit "bage" ++ [0x0D])
                 (mk_state (lit "gar") [] [] 0 (Some (lit "COM4"))))) = []
  /\ clock (snd (loop_body sample_world (lit "bage" ++ [0x0D])
                   (mk_state (lit "gar") [] [] 0 (Some (lit "COM4")))))
     = 0%nat.
Proof.
  apply (ignored_line_is_silent sample_world (lit "bage" ++ [0x0D])
           (mk_state (lit "gar") [] [] 0 (Some (lit "COM4"))));
    vm_compute; reflexivity.
Defined.

Lemma set_buf_buf st b : buf (set_buf st b) = b.
Proof. reflexivity. Qed.

Lemma loop_pending w (chunks : list bytes) : forall st,
  no_terminator (buf st ++ concat chunks) = true ->
  loop w (map Data chunks) st
  = (None, set_buf st (buf st ++ concat chunks), []).
Proof.
  induction chunks as [|chunk rest IH]; intros st H.
  - cbn [concat map loop]. rewrite set_buf_same. reflexivity.
  - cbn [concat map loop]. cbn [concat] in H. rewrite app_assoc in H.
    assert (Hc : no_terminator (buf st ++ chunk) = true).
    { rewrite no_terminator_app in H. apply andb_true_iff in H. tauto. }
    rewrite (loop_body_pending _ _ _ (no_terminator_unterminated _ Hc)).
    rewrite IH; rewrite set_buf_buf; [|exact H].
    rewrite set_buf_idem, app_assoc. reflexivity.
Qed.

(** X10. As long as no terminator arrives, the loop only accumulates: after
    any number of reads (empty ones included) the buffer holds every byte
    received, in order, without bound, and nothing else has changed: no file,
    no log record, no exception. A read that returns nothing leaves the
    state as it is. *)
Theorem unterminated_input_accumulates (w : world) (chunks : list bytes)
        (st : state) :
  no_terminator (buf st ++ concat chunks) = true ->
  loop w (map Data chunks) st
  = (None, set_buf st (buf st ++ concat chunks), [])
  /\ (concat chunks = [] -> loop w (map Data chunks) st = (None, st, [])).
Proof.
  intros H. split.
  - exact (loop_pending w chunks st H).
  - intros Hnil. rewrite (loop_pending w chunks st H), Hnil.
    rewrite set_buf_same. reflexivity.
Qed.

Lemma unterminated_input_accumulates_witness :
  loop sample_world (map Data [lit "/m/1234"; []; lit "56/ /m/7654321/"])
       (mk_state (lit "xx") [] [] 0 (Some (lit "COM4")))
  = (None,
     set_buf (mk_state (lit "xx") [] [] 0 (Some (lit "COM4")))
             (lit "xx" ++ concat [lit "/m/1234"; []; lit "56/ /m/7654321/"]),
     [])
  /\ (concat [lit "/m/1234"; []; lit "56/ /m/7654321/"] = [] ->
      loop sample_world (map Data [lit "/m/1234"; []; lit "56/ /m/7654321/"])
           (mk_state (lit "xx") [] [] 0 (Some (lit "COM4")))
      = (None, mk_state (lit "xx") [] [] 0 (Some (lit "COM4")), [])).
Proof.
  apply (unterminated_input_accumulates sample_world
           [lit "/m/1234"; []; lit "56/ /m/7654321/"]
           (mk_state (lit "xx") [] [] 0 (Some (lit "COM4")))).
  vm_compute. reflexivity.
Defined.

(** One record, however it is cut: the loop does with it what
    [handle_line] does with its line. *)
Lemma loop_one_record_outcome w (record : bytes) :
  no_terminator record = true ->
  forall (chunks : list bytes) (st : state),
    buf st ++ concat chunks = record ++ [0x0D] ->
    endswith (buf st) END_BYTES = false ->
    fst (loop w (map Data chunks) st)
    = handle_line w (strip (text_of (record ++ [0x0D]))) (set_buf st []).
Proof.
  intros Hno. induction chunks as [|chunk rest IH]; intros st E Hb.
  - cbn [concat] in E. rewrite app_nil_r in E. rewrite E in Hb.
    rewrite endswith_snoc in Hb. discriminate Hb.
  - cbn [concat] in E. rewrite app_assoc in E. cbn [map loop].
    destruct (endswith (buf st ++ chunk) END_BYTES) eqn:Hend.
    + rewrite (loop_body_terminated _ _ _ Hend).
      destruct (endswith_inv _ Hend) as (b' & Eb). rewrite Eb in E.
      destruct (terminated_prefix _ _ _ Hno E) as [-> Hrest]. rewrite Eb.
      pose proof (handle_line_buf w (strip (text_of (record ++ [0x0D])))
                                  (set_buf st [])) as Hbuf.
      destruct (handle_line w _ (set_buf st [])) as [[e|] st1];
        [reflexivity|].
      cbn [snd] in Hbuf. rewrite loop_idle; [reflexivity | exact Hrest|].
      rewrite Hbuf. reflexivity.
    + rewrite (loop_body_pending _ _ _ Hend).
      rewrite IH; [rewrite set_buf_idem; reflexivity | exact E | exact Hend].
Qed.

(** X11. One scan, any cutting: for a record that holds no terminator and
    is followed by one, two sequences of reads that deliver the same bytes
    from an empty buffer end in the same state with the same outcome (the
    same file saved, the same exception if the composition fails), as if the
    record had come in one read. *)
Theorem one_record_any_cutting (w : world) (record : bytes)
        (chunks chunks' : list bytes) (st : state) :
  no_terminator record = true ->
  buf st = [] ->
  concat chunks = record ++ [0x0D] ->
  concat chunks' = record ++ [0x0D] ->
  fst (loop w (map Data chunks) st) = fst (loop w (map Data chunks') st)
  /\ fst (loop w (map Data chunks) st)
     = fst (loop w [Data (record ++ [0x0D])] st).
Proof.
  intros Hno Hb Hc Hc'.
  assert (H : forall cs, concat cs = record ++ [0x0D] ->
                         fst (loop w (map Data cs) st)
                         = handle_line w (strip (text_of (record ++ [0x0D])))
                                       (set_buf st [])).
  { intros cs Hcs. apply (loop_one_record_outcome w record Hno).
    - rewrite Hb. exact Hcs.
    - rewrite Hb. reflexivity. }
  rewrite (H chunks Hc), (H chunks' Hc').
  split; [reflexivity|].
  symmetry. apply (H [record ++ [0x0D]]). cbn [concat]. apply app_nil_r.
Qed.

Lemma one_record_any_cutting_witness :
  fst (loop sample_world (map Data [lit "xx/m/99"; lit "99999/" ++ [0x0D]])
            (open_port (lit "COM4") initial))
  = fst (loop sample_world
              (map Data [lit "x"; []; lit "x/m/999999"; lit "9/"; [0x0D]; []])
              (open_port (lit "COM4") initial))
  /\ fst (loop sample_world (map Data [lit "xx/m/99"; lit "99999/" ++ [0x0D]])
               (open_port (lit "COM4") initial))
     = fst (loop sample_world [Data (lit "xx/m/9999999/" ++ [0x0D])]
                 (open_port (lit "COM4") initial)).
Proof.
  apply (one_record_any_cutting sample_world (lit "xx/m/9999999/"));
    reflexivity.
Defined.

(* ------------------------------------------------------------------------- *)
(** * More on the extractor *)
(* ------------------------------------------------------------------------- *)

Lemma first_uid_sound (s : str) : forall ds,
  first_uid s = Some ds ->
  exists i,
    candidate isdecimal s i ds
    /\ forall j ds', (j < i)%nat -> ~ candidate isdecimal s j ds'.
Proof.
  induction s as [|x s IH]; intros ds H.
  - cbn [first_uid] in H. change (uid_here []) with (@None str) in H.
    discriminate H.
  - cbn [first_uid] in H.
    destruct (uid_here (x :: s)) as [ds0|] eqn:E0.
    + injection H as ->. exists 0%nat. split.
      * apply uid_here_candidate, E0.
      * intros j ds' Hj. lia.
    + destruct (IH ds H) as (i & Hc & Hleft). exists (S i). split.
      * apply candidate_S, Hc.
      * intros [|j] ds' Hj Hc'.
        -- apply uid_here_candidate in Hc'. congruence.
        -- apply candidate_S in Hc'. apply (Hleft j ds'); [lia | exact Hc'].
Qed.

(** X12. What the extractor returns is always an identifier of the line:
    when [extract_uid] returns [uid], the line holds ["/m/"], [uid] and ["/"]
    at some offset, [uid] is made of 6 to 12 decimal digits, and no such
    substring begins further left. *)
Theorem extract_uid_sound (line uid : str) :
  extract_uid line = Some uid ->
  forallb isdecimal uid = true
  /\ (6 <= List.length uid <= 12)%nat
  /\ exists pre post,
      line = pre ++ lit "/m/" ++ uid ++ lit "/" ++ post
      /\ forall j ds', (j < List.length pre)%nat ->
                       ~ candidate isdecimal line j ds'.
Proof.
  rewrite extract_uid_first. intros H.
  destruct (first_uid_sound line uid H)
    as (i & (pre & post & E & Hl & Hds & Hlen) & Hleft).
  split; [exact Hds|]. split; [exact Hlen|].
  exists pre, post. split; [exact E|]. rewrite Hl. exact Hleft.
Qed.

Lemma extract_uid_sound_witness :
  forallb isdecimal (lit "1234567") = true
  /\ (6 <= List.length (lit "1234567") <= 12)%nat
  /\ exists pre post,
      lit "a/m/12345/ /m/1234567/x/m/7654321/"
      = pre ++ lit "/m/" ++ lit "1234567" ++ lit "/" ++ post
      /\ forall j ds', (j < List.length pre)%nat ->
                       ~ candidate isdecimal
                           (lit "a/m/12345/ /m/1234567/x/m/7654321/") j ds'.
Proof.
  apply (extract_uid_sound (lit "a/m/12345/ /m/1234567/x/m/7654321/")).
  vm_compute. reflexivity.
Defined.

Lemma uid_here_short_run (ds post : str) :
  forallb isdecimal ds = true ->
  (List.length ds < 6)%nat ->
  uid_here (0x2F :: 0x6D :: 0x2F :: ds ++ 0x2F :: post) = None.
Proof.
  intros Hds Hlen. rewrite uid_here_prefix.
  rewrite (span_digits_run ds (0x2F :: post) Hds (digits_end_slash post)).
  rewrite Z.eqb_refl.
  replace ((6 <=? List.length ds)%nat) with false
    by (symmetry; apply Nat.leb_gt; lia).
  reflexivity.
Qed.

(** Where the pattern fails on ["/m/"], digits and ["/"], the search
    resumes at the closing ["/"]. *)
Lemma first_uid_rejected_run (ds post : str) :
  forallb isdecimal ds = true ->
  uid_here (0x2F :: 0x6D :: 0x2F :: ds ++ 0x2F :: post) = None ->
  first_uid (0x2F :: 0x6D :: 0x2F :: ds ++ 0x2F :: post)
  = first_uid (0x2F :: post).
Proof.
  intros Hds Hnone.
  assert (H1 : first_uid (0x2F :: 0x6D :: 0x2F :: ds ++ 0x2F :: post)
               = first_uid (0x2F :: ds ++ 0x2F :: post)).
  { cbn [first_uid]. rewrite Hnone, (uid_here_not_slash 0x6D _ eq_refl).
    reflexivity. }
  rewrite H1. destruct ds as [|d ds'].
  - cbn [app first_uid]. rewrite (uid_here_not_m 0x2F 0x2F _ eq_refl).
    reflexivity.
  - assert (Hd : isdecimal d = true).
    { cbn [forallb] in Hds. apply andb_true_iff in Hds. tauto. }
    assert (H3 : first_uid (0x2F :: (d :: ds') ++ 0x2F :: post)
                 = first_uid ((d :: ds') ++ 0x2F :: post)).
    { cbn [app first_uid].
      rewrite (uid_here_not_m 0x2F d _ (decimal_not_m d Hd)). reflexivity. }
    rewrite H3. apply first_uid_skip_digits, Hds.
Qed.

(** X13. The lower bound of the pattern: where ["/m/"] is followed by five
    digits or fewer (none included) and ["/"], nothing is extracted from
    that occurrence; the extractor returns what it finds before it, or else
    from its closing ["/"] on. *)
Theorem short_digit_run_rejected (pre ds post : str) :
  forallb isdecimal ds = true ->
  (List.length ds < 6)%nat ->
  match_here UID_PATTERN (lit "/m/" ++ ds ++ lit "/" ++ post) = None
  /\ extract_uid (pre ++ lit "/m/" ++ ds ++ lit "/" ++ post)
     = match extract_uid (pre ++ lit "/") with
       | Some uid => Some uid
       | None => extract_uid (lit "/" ++ post)
       end.
Proof.
  intros Hds Hlen.
  change (lit "/m/" ++ ds ++ lit "/" ++ post)
    with (0x2F :: 0x6D :: 0x2F :: ds ++ 0x2F :: post).
  change (lit "/" ++ post) with (0x2F :: post).
  change (lit "/") with [0x2F].
  pose proof (uid_here_short_run ds post Hds Hlen) as Hnone.
  split.
  - rewrite match_here_uid, Hnone. reflexivity.
  - rewrite !extract_uid_first, first_uid_before_slash_m.
    rewrite (first_uid_rejected_run ds post Hds Hnone). reflexivity.
Qed.

Lemma short_digit_run_rejected_witness :
  match_here UID_PATTERN (lit "/m/" ++ lit "12345" ++ lit "/" ++ lit "m/")
  = None
  /\ extract_uid (lit "id=" ++ lit "/m/" ++ lit "12345" ++ lit "/"
                    ++ lit "m/")
     = match extract_uid (lit "id=" ++ lit "/") with
       | Some uid => Some uid
       | None => extract_uid (lit "/" ++ lit "m/")
       end.
Proof.
  apply (short_digit_run_rejected (lit "id=") (lit "12345") (lit "m/")).
  - reflexivity.
  - vm_compute. lia.
Defined.

(* ------------------------------------------------------------------------- *)
(** * Lines of ASCII bytes *)
(* ------------------------------------------------------------------------- *)

Lemma text_of_ascii (b : bytes) :
  forallb (fun c => c <? 0x80) b = true -> text_of b = b.
Proof.
  induction b as [|c b IH]; intros H; [reflexivity|].
  cbn [forallb] in H. apply andb_true_iff in H. destruct H as [Hc Hb].
  rewrite (text_of_ascii_cons c b Hc), (IH Hb). reflexivity.
Qed.

(** X14. A buffer of ASCII bytes that ends with the terminator is handed
    over as it is, byte for character, without the white space at its two
    ends: decoding changes nothing. *)
Theorem ascii_record_line (b chunk : bytes) :
  forallb (fun c => c <? 0x80) (b ++ chunk) = true ->
  endswith (b ++ chunk) END_BYTES = true ->
  frame b chunk = ([], Some (Ok (strip (b ++ chunk))))
  /\ decode Strict (b ++ chunk) = Ok (b ++ chunk).
Proof.
  intros Ha Hend. split.
  - rewrite (frame_terminated _ _ Hend), (text_of_ascii _ Ha). reflexivity.
  - pose proof (text_of_ascii _ Ha) as Ht. unfold decode.
    assert (Hwf : existsb is_malformed (utf8_scan (b ++ chunk)) = false).
    { clear Hend Ht. induction (b ++ chunk) as [|c l IH]; [reflexivity|].
      cbn [forallb] in Ha. apply andb_true_iff in Ha. destruct Ha as [Hc Hl].
      cbn [utf8_scan]. rewrite Hc. cbn [existsb is_malformed orb].
      exact (IH Hl). }
    rewrite Hwf. f_equal. exact Ht.
Qed.

Lemma ascii_record_line_witness :
  frame (lit " noise/m/12") (lit "3456/end" ++ [0x0D])
  = ([], Some (Ok (strip (lit " noise/m/12" ++ lit "3456/end" ++ [0x0D]))))
  /\ decode Strict (lit " noise/m/12" ++ lit "3456/end" ++ [0x0D])
     = Ok (lit " noise/m/12" ++ lit "3456/end" ++ [0x0D]).
Proof.
  apply (ascii_record_line (lit " noise/m/12") (lit "3456/end" ++ [0x0D]));
    reflexivity.
Defined.

(* ------------------------------------------------------------------------- *)
(** * File names *)
(* ------------------------------------------------------------------------- *)

Lemma digit_inj (a b : Z) : digit a = digit b -> a mod 10 = b mod 10.
Proof. unfold digit. lia. Qed.

Lemma pad2_inj (n m : Z) :
  0 <= n < 100 -> 0 <= m < 100 -> pad2 n = pad2 m -> n = m.
Proof.
  unfold pad2. intros Hn Hm H. injection H as H1 H0.
  apply digit_inj in H1, H0. Z.div_mod_to_equations. lia.
Qed.

Lemma pad4_inj (n m : Z) :
  0 <= n < 10000 -> 0 <= m < 10000 -> pad4 n = pad4 m -> n = m.
Proof.
  unfold pad4. intros Hn Hm H. injection H as H3 H2 H1 H0.
  apply digit_inj in H3, H2, H1, H0. Z.div_mod_to_equations. lia.
Qed.

Lemma strftime_compact_inj (t t' : datetime) :
  valid_datetime t -> valid_datetime t' ->
  strftime_compact t = strftime_compact t' -> t = t'.
Proof.
  intros Ht Ht'.
  rewrite (strftime_compact_valid t Ht), (strftime_compact_valid t' Ht').
  destruct Ht as (Hy & Hmo & Hd & Hh & Hmi & Hs).
  destruct Ht' as (Hy' & Hmo' & Hd' & Hh' & Hmi' & Hs').
  intros H.
  assert (E : pad4 (year t) = pad4 (year t')
              /\ pad2 (month t) = pad2 (month t')
              /\ pad2 (day t) = pad2 (day t')
              /\ pad2 (hour t) = pad2 (hour t')
              /\ pad2 (minute t) = pad2 (minute t')
              /\ pad2 (second t) = pad2 (second t')).
  { unfold pad4, pad2 in *. cbn [app] in H.
    injection H as -> -> -> -> -> -> -> -> -> -> -> -> -> ->.
    repeat split. }
  destruct E as (Ey & Emo & Ed & Eh & Emi & Es).
  apply pad4_inj in Ey; [|lia|lia].
  apply pad2_inj in Emo; [|lia|lia]. apply pad2_inj in Ed; [|lia|lia].
  apply pad2_inj in Eh; [|lia|lia]. apply pad2_inj in Emi; [|lia|lia].
  apply pad2_inj in Es; [|lia|lia].
  destruct t, t'. cbn in *. congruence.
Qed.

Lemma app_inv_same_length {A} (a a' b b' : list A) :
  List.length a = List.length a' -> a ++ b = a' ++ b' -> a = a' /\ b = b'.
Proof.
  revert a'. induction a as [|x a IH]; intros [|x' a'] Hl H;
    try discriminate Hl.
  - auto.
  - injection Hl as Hl. injection H as -> H.
    destruct (IH a' Hl H) as [-> ->]. auto.
Qed.

Lemma label_name_inj (uid uid' ts ts' : str) :
  List.length ts = List.length ts' ->
  label_name uid ts = label_name uid' ts' -> uid = uid' /\ ts = ts'.
Proof.
  intros Hl H. unfold label_name in H.
  apply app_inv_head in H. apply app_inv_head in H.
  assert (Hlen : List.length uid = List.length uid').
  { apply (f_equal (@List.length Z)) in H. rewrite !length_app in H. lia. }
  destruct (app_inv_same_length _ _ _ _ Hlen H) as [-> H'].
  apply app_inv_head in H'. apply app_inv_tail in H'. auto.
Qed.

(** X16. Two labels get the same file name exactly when they are for the
    same identifier and composed in the same second: the name carries the
    identifier and the time, and nothing else tells two files apart (a second
    scan of an identifier within the second is saved under the name of the
    first). *)
Theorem label_name_collision (uid uid' : str) (t t' : datetime) :
  valid_datetime t -> valid_datetime t' ->
  (label_name uid (strftime_compact t) = label_name uid' (strftime_compact t')
   <-> uid = uid' /\ t = t').
Proof.
  intros Ht Ht'. split.
  - intros H. apply label_name_inj in H;
      [|rewrite !strftime_compact_length by assumption; reflexivity].
    destruct H as [-> H]. split; [reflexivity|].
    exact (strftime_compact_inj t t' Ht Ht' H).
  - intros [-> ->]. reflexivity.
Qed.

Lemma label_name_collision_witness :
  label_name (lit "123456") (strftime_compact (mk_datetime 2024 5 17 9 3 7))
  = label_name (lit "123456") (strftime_compact (mk_datetime 2024 5 17 9 3 7))
  <-> lit "123456" = lit "123456"
      /\ mk_datetime 2024 5 17 9 3 7 = mk_datetime 2024 5 17 9 3 7.
Proof.
  apply (label_name_collision (lit "123456") (lit "123456")
           (mk_datetime 2024 5 17 9 3 7) (mk_datetime 2024 5 17 9 3 7));
    unfold valid_datetime; cbn; lia.
Defined.

(* ------------------------------------------------------------------------- *)
(** * What a run saves *)
(* ------------------------------------------------------------------------- *)











Lemma logging_grows level msg st :
  files (logging level msg st) = files st
  /\ exists more, log (logging level msg st) = log st ++ more.
Proof.
  unfold logging. destruct (LOG_LEVEL <=? level); cbn [files log].
  - split; [reflexivity | eauto].
  - split; [reflexivity | exists []; symmetry; apply app_nil_r].
Qed.

Lemma loop_body_grows w chunk st :
  exists more_files more_log,
    files (snd (loop_body w chunk st)) = files st ++ more_files
    /\ log (snd (loop_body w chunk st)) = log st ++ more_log
    /\ (List.length more_files <= 1)%nat.
Proof.
  unfold loop_body.
  destruct (frame (buf st) chunk) as [b [[line|e]|]]; cbn [snd];
    try solve [exists [], []; cbn [files log set_buf List.length];
               rewrite !app_nil_r; auto].
  unfold handle_line. destruct (extract_uid line) as [uid|].
  - destruct (compose_label w uid) as [img|e]; cbn [snd].
    + destruct (image_save w _ _ img) as [e|]; cbn [snd].
      * exists [], []. cbn [files log tick set_buf List.length].
        rewrite !app_nil_r. auto.
      * match goal with
        | |- context [logging ?l ?m ?s] =>
          destruct (logging_grows l m s) as (Hf & more & Hl)
        end.
        eexists (cons _ nil). exists more. rewrite Hf, Hl.
        cbn [files log save tick set_buf List.length]. auto.
    + exists [], []. cbn [files log set_buf List.length].
      rewrite !app_nil_r. auto.
  - cbn [snd].
    match goal with
    | |- context [logging ?l ?m ?s] =>
      destruct (logging_grows l m s) as (Hf & more & Hl)
    end.
    exists [], more. rewrite Hf, Hl. cbn [files log set_buf List.length].
    rewrite app_nil_r. auto.
Qed.

Lemma loop_grows w reads : forall st,
  exists more_files more_log,
    files (snd (fst (loop w reads st))) = files st ++ more_files
    /\ log (snd (fst (loop w reads st))) = log st ++ more_log
    /\ (List.length more_files
        + List.length (snd (loop w reads st)) <= List.length reads)%nat.
Proof.
  induction reads as [|[chunk|e] rest IH]; intros st; cbn [loop fst snd].
  - exists [], []. rewrite !app_nil_r. auto.
  - destruct (loop_body_grows w chunk st) as (f1 & l1 & Hf1 & Hl1 & Hn1).
    destruct (loop_body w chunk st) as [[e|] st']; cbn [fst snd] in *.
    + exists f1, l1. cbn [List.length]. repeat split; auto. lia.
    + destruct (IH st') as (f2 & l2 & Hf2 & Hl2 & Hn2).
      exists (f1 ++ f2), (l1 ++ l2).
      rewrite Hf2, Hl2, Hf1, Hl1, !app_assoc, length_app.
      cbn [List.length]. repeat split; auto. lia.
  - exists [], []. rewrite !app_nil_r. cbn [List.length]. repeat split. lia.
Qed.

(** X18. The loop only adds: the files and the log records present before
    a sequence of reads are still there, in the same order, after it; and it
    saves at most one file per read it has consumed, so a read that brings
    several terminated scans at once gives one label at most. *)
Theorem loop_only_adds (w : world) (reads : list read_event) (st : state) :
  exists more_files more_log,
    files (snd (fst (loop w reads st))) = files st ++ more_files
    /\ log (snd (fst (loop w reads st))) = log st ++ more_log
    /\ (List.length more_files
        + List.length (snd (loop w reads st)) <= List.length reads)%nat.
Proof. apply loop_grows. Qed.

(* ------------------------------------------------------------------------- *)
(** * Separators: white space, terminators, and what a match cannot cross *)
(* ------------------------------------------------------------------------- *)

Lemma separator_inv (c : Z) :
  separator c = true ->
  (c =? 0x2F) = false /\ (c =? 0x6D) = false /\ isdecimal c = false.
Proof.
  unfold separator. intros H.
  apply andb_true_iff in H. destruct H as [H H3].
  apply andb_true_iff in H. destruct H as [H1 H2].
  apply negb_true_iff in H1, H2, H3. auto.
Qed.

Lemma span_digits_separator (t rest : str) (c : Z) :
  isdecimal c = false ->
  span_digits (t ++ c :: rest)
  = (fst (span_digits t), snd (span_digits t) ++ c :: rest).
Proof.
  intros Hc. induction t as [|x t IH]; cbn [app span_digits fst snd].
  - rewrite Hc. reflexivity.
  - destruct (isdecimal x); [|reflexivity].
    rewrite IH. destruct (span_digits t). reflexivity.
Qed.

(** A match does not reach a separator: what follows one does not change
    what is matched before it. *)
Lemma uid_here_separator (s rest : str) (c : Z) :
  separator c = true -> uid_here (s ++ c :: rest) = uid_here s.
Proof.
  intros Hsep. destruct (separator_inv c Hsep) as (H1 & H2 & H3).
  destruct s as [|c1 [|c2 [|c3 t]]]; cbn [app].
  - rewrite (uid_here_not_slash c _ H1). reflexivity.
  - rewrite (uid_here_not_m c1 c _ H2). reflexivity.
  - unfold uid_here. destruct rest; rewrite H1, andb_false_r; reflexivity.
  - unfold uid_here.
    destruct ((c1 =? 0x2F) && (c2 =? 0x6D) && (c3 =? 0x2F)); [|reflexivity].
    rewrite (span_digits_separator t rest c H3).
    destruct (span_digits t) as [ds [|x r]]; cbn [fst snd app].
    + rewrite H1. reflexivity.
    + reflexivity.
Qed.

Lemma first_uid_separator (s rest : str) (c : Z) :
  separator c = true ->
  first_uid (s ++ c :: rest)
  = match first_uid s with
    | Some uid => Some uid
    | None => first_uid rest
    end.
Proof.
  intros Hsep. induction s as [|x s IH].
  - destruct (separator_inv c Hsep) as (H1 & _ & _).
    cbn [app first_uid]. rewrite (uid_here_not_slash c _ H1). reflexivity.
  - change (first_uid ((x :: s) ++ c :: rest))
      with (match uid_here ((x :: s) ++ c :: rest) with
            | Some ds => Some ds
            | None => first_uid (s ++ c :: rest)
            end).
    change (first_uid (x :: s))
      with (match uid_here (x :: s) with
            | Some ds => Some ds
            | None => first_uid s
            end).
    rewrite (uid_here_separator (x :: s) rest c Hsep), IH.
    destruct (uid_here (x :: s)); reflexivity.
Qed.

Lemma first_uid_separators (r : str) :
  forallb separator r = true -> first_uid r = None.
Proof.
  induction r as [|c r IH]; intros H; [reflexivity|].
  cbn [forallb] in H. apply andb_true_iff in H. destruct H as [Hc Hr].
  pose proof (first_uid_separator [] r c Hc) as E. cbn [app] in E.
  rewrite E. exact (IH Hr).
Qed.

Lemma first_uid_after_separators (l s : str) :
  forallb separator l = true -> first_uid (l ++ s) = first_uid s.
Proof.
  induction l as [|c l IH]; intros H; [reflexivity|].
  cbn [forallb] in H. apply andb_true_iff in H. destruct H as [Hc Hl].
  pose proof (first_uid_separator [] (l ++ s) c Hc) as E. cbn [app] in E.
  cbn [app]. rewrite E. exact (IH Hl).
Qed.

Lemma first_uid_before_separators (s r : str) :
  forallb separator r = true -> first_uid (s ++ r) = first_uid s.
Proof.
  intros H. destruct r as [|c r]; [rewrite app_nil_r; reflexivity|].
  cbn [forallb] in H. apply andb_true_iff in H. destruct H as [Hc Hr].
  rewrite (first_uid_separator s r c Hc), (first_uid_separators r Hr).
  destruct (first_uid s); reflexivity.
Qed.

Lemma space_ranges (c : Z) :
  isspace c = true ->
  c <= 0x20 \/ 0x85 <= c <= 0xA0 \/ c = 0x1680 \/ 0x2000 <= c <= 0x3000.
Proof.
  unfold isspace, in_range. intros H.
  repeat (apply orb_true_iff in H; destruct H as [H|H]);
    repeat match goal with
           | H : _ && _ = true |- _ =>
             apply andb_true_iff in H; destruct H
           | H : (_ <=? _) = true |- _ => apply Z.leb_le in H
           | H : (_ =? _) = true |- _ => apply Z.eqb_eq in H
           end; lia.
Qed.

Lemma decimal_zeros_off_spaces :
  Forall (fun z => z = 0x30
                   \/ (0xA0 < z /\ z + 9 < 0x1680)
                   \/ (0x1680 < z /\ z + 9 < 0x2000)
                   \/ 0x3000 < z) decimal_zeros.
Proof.
  unfold decimal_zeros.
  repeat (constructor; [lia|]). constructor.
Qed.

Lemma space_not_decimal (c : Z) : isspace c = true -> isdecimal c = false.
Proof.
  intros Hs. apply space_ranges in Hs.
  destruct (isdecimal c) eqn:Hd; [|reflexivity]. exfalso.
  unfold isdecimal in Hd. apply existsb_exists in Hd.
  destruct Hd as (z & Hz & Hr).
  pose proof decimal_zeros_off_spaces as Hall.
  rewrite Forall_forall in Hall. specialize (Hall z Hz).
  unfold in_range in Hr. apply andb_true_iff in Hr. destruct Hr as [H1 H2].
  apply Z.leb_le in H1, H2. lia.
Qed.

Lemma space_separator (c : Z) : isspace c = true -> separator c = true.
Proof.
  intros Hs. unfold separator. rewrite (space_not_decimal c Hs).
  pose proof (space_ranges c Hs) as Hr.
  destruct (Z.eqb_spec c 0x2F); [lia|]. destruct (Z.eqb_spec c 0x6D); [lia|].
  reflexivity.
Qed.

Lemma extract_uid_strip (text : str) :
  extract_uid (strip text) = extract_uid text.
Proof.
  rewrite !extract_uid_first.
  destruct (strip_spec text) as (l & r & E & Hl & Hr & _).
  rewrite E at 2.
  rewrite first_uid_after_separators, first_uid_before_separators;
    [reflexivity| |].
  - revert Hr. apply forallb_impl. intros x _. apply space_separator.
  - revert Hl. apply forallb_impl. intros x _. apply space_separator.
Qed.

Lemma extract_uid_terminator (first rest : str) :
  extract_uid (first ++ 0x0D :: rest)
  = match extract_uid first with
    | Some uid => Some uid
    | None => extract_uid rest
    end.
Proof.
  rewrite !extract_uid_first. apply first_uid_separator. reflexivity.
Qed.

(** X19. Stripping the line has no effect on the identifier: the extractor
    finds in the stripped text what it finds in the decoded text (white
    space is never part of a match). *)
Theorem strip_keeps_identifier (text : str) :
  extract_uid (strip text) = extract_uid text.
Proof. apply extract_uid_strip. Qed.

(** X20. A line with terminators inside (several scans brought by one
    read): the identifier is that of the first record that holds one; what
    the records after it hold is not looked at. No match spans a
    terminator. *)
Theorem first_record_wins (first rest : str) :
  extract_uid (first ++ [0x0D] ++ rest)
  = match extract_uid first with
    | Some uid => Some uid
    | None => extract_uid rest
    end.
Proof. apply extract_uid_terminator. Qed.

(* ------------------------------------------------------------------------- *)
(** * Several records in one read *)
(* ------------------------------------------------------------------------- *)

(** A byte below 0x80 cuts the decoding in two: what precedes it and what
    follows it are decoded apart. *)
Lemma text_of_app_ascii_bounded (c : Z) (tail : bytes) :
  (c <? 0x80) = true ->
  forall (n : nat) (b : bytes),
    (List.length b <= n)%nat ->
    text_of (b ++ c :: tail) = text_of b ++ c :: text_of tail.
Proof.
  intros Hc. pose proof (ascii_not_continuation c Hc) as Hnc.
  assert (Hnil : flat_map (handle Ignore) (utf8_scan (c :: tail))
                 = c :: flat_map (handle Ignore) (utf8_scan tail))
    by (cbn [utf8_scan]; rewrite Hc; reflexivity).
  unfold text_of.
  induction n as [|n IH]; intros b Hlen.
  - destruct b; [exact Hnil | simpl in Hlen; lia].
  - destruct b as [|ch s1]; [exact Hnil|].
    cbn [app utf8_scan].
    repeat match goal with
           | |- flat_map _ (match ?l ++ c :: tail with _ => _ end) = _ =>
             is_var l; pose proof (IH l); destruct l; cbn [app] in *
           | |- flat_map _ (if ?b then _ else _) = _ =>
             lazymatch b with
             | context [is_continuation c] => rewrite Hnc; cbn [negb orb]
             | _ => destruct b eqn:?
             end
           end;
      cbn [flat_map handle app];
      repeat match goal with
             | H : _ -> flat_map _ _ = _ |- _ =>
               first [ rewrite H by (cbn [List.length] in *; lia) | clear H ]
             end;
      rewrite ?IH by (cbn [List.length] in *; lia);
      rewrite ?Hnil;
      reflexivity.
Qed.

Lemma text_of_app_ascii (c : Z) (b tail : bytes) :
  (c <? 0x80) = true ->
  text_of (b ++ c :: tail) = text_of b ++ c :: text_of tail.
Proof.
  intros Hc.
  exact (text_of_app_ascii_bounded c tail Hc (List.length b) b (le_n _)).
Qed.

(** What is done with a line depends on the identifier found in it only. *)
Lemma handle_line_ext w (l1 l2 : str) (st : state) :
  extract_uid l1 = extract_uid l2 -> handle_line w l1 st = handle_line w l2 st.
Proof.
  intros H. unfold handle_line. rewrite H.
  destruct (extract_uid l2); reflexivity.
Qed.

Lemma text_record_uid (r : bytes) :
  extract_uid (text_of (r ++ [0x0D])) = extract_uid (text_of r).
Proof.
  rewrite text_of_snoc_ascii by reflexivity.
  rewrite extract_uid_terminator.
  destruct (extract_uid (text_of r)); reflexivity.
Qed.

Lemma record_line_uid (r : bytes) :
  extract_uid (strip (text_of (r ++ [0x0D]))) = extract_uid (text_of r).
Proof. rewrite extract_uid_strip. apply text_record_uid. Qed.

Lemma records_line_uid (r1 r2 : bytes) :
  extract_uid (strip (text_of (r1 ++ [0x0D] ++ r2 ++ [0x0D])))
  = match extract_uid (text_of r1) with
    | Some uid => Some uid
    | None => extract_uid (text_of r2)
    end.
Proof.
  rewrite extract_uid_strip.
  change (r1 ++ [0x0D] ++ r2 ++ [0x0D]) with (r1 ++ 0x0D :: (r2 ++ [0x0D])).
  rewrite text_of_app_ascii by reflexivity.
  rewrite extract_uid_terminator, text_record_uid. reflexivity.
Qed.

Lemma loop_body_record w (r : bytes) (st : state) :
  buf st = [] ->
  loop_body w (r ++ [0x0D]) st
  = handle_line w (strip (text_of (r ++ [0x0D]))) (set_buf st []).
Proof.
  intros Hb. rewrite loop_body_terminated; rewrite Hb; [reflexivity|].
  cbn [app]. apply endswith_snoc.
Qed.

(** X21. Two scans brought by one read, into an empty buffer: when the
    first record holds an identifier, the turn does exactly what it would
    have done for the first record alone, and the second scan is lost; when
    the first holds none, the turn does what it would have done for the
    second alone. (Brought by two reads, each record has its own turn.) *)
Theorem two_records_in_one_read (w : world) (r1 r2 : bytes) (st : state) :
  buf st = [] ->
  (forall uid, extract_uid (text_of r1) = Some uid ->
     loop_body w (r1 ++ [0x0D] ++ r2 ++ [0x0D]) st
     = loop_body w (r1 ++ [0x0D]) st)
  /\ (extract_uid (text_of r1) = None ->
      loop_body w (r1 ++ [0x0D] ++ r2 ++ [0x0D]) st
      = loop_body w (r2 ++ [0x0D]) st).
Proof.
  intros Hb.
  assert (Hboth : loop_body w (r1 ++ [0x0D] ++ r2 ++ [0x0D]) st
                  = handle_line w
                      (strip (text_of (r1 ++ [0x0D] ++ r2 ++ [0x0D])))
                      (set_buf st [])).
  { rewrite loop_body_terminated; rewrite Hb; [reflexivity|].
    cbn [app]. rewrite app_comm_cons, app_assoc. apply endswith_snoc. }
  split.
  - intros uid H. rewrite Hboth, (loop_body_record w r1 st Hb).
    apply handle_line_ext. rewrite records_line_uid, record_line_uid, H.
    reflexivity.
  - intros H. rewrite Hboth, (loop_body_record w r2 st Hb).
    apply handle_line_ext. rewrite records_line_uid, record_line_uid, H.
    reflexivity.
Qed.

Lemma two_records_in_one_read_witness :
  (forall uid, extract_uid (text_of (lit "a/m/123456/")) = Some uid ->
     loop_body sample_world
               (lit "a/m/123456/" ++ [0x0D] ++ lit "b/m/7654321/" ++ [0x0D])
               (open_port (lit "COM4") initial)
     = loop_body sample_world (lit "a/m/123456/" ++ [0x0D])
                 (open_port (lit "COM4") initial))
  /\ (extract_uid (text_of (lit "a/m/123456/")) = None ->
      loop_body sample_world
                (lit "a/m/123456/" ++ [0x0D] ++ lit "b/m/7654321/" ++ [0x0D])
                (open_port (lit "COM4") initial)
      = loop_body sample_world (lit "b/m/7654321/" ++ [0x0D])
                  (open_port (lit "COM4") initial)).
Proof.
  apply (two_records_in_one_read sample_world (lit "a/m/123456/")
           (lit "b/m/7654321/") (open_port (lit "COM4") initial)).
  reflexivity.
Defined.

(* ------------------------------------------------------------------------- *)
(** * A label that cannot be written *)
(* ------------------------------------------------------------------------- *)

(** X22. When the label is composed but [img.save] raises an exception
    (any subclass of [Exception]: the directory is gone, the disk is full),
    [main] logs it at level ERROR and calls [sys.exit(1)]: the file is not
    among those saved, the success message is not logged, the clock has been
    read for it, the buffer is already empty, and the reads that follow are
    not consumed. *)
Theorem save_failure_exits (PORT : option str) (w : world) (port : str)
        (before after : list read_event) (chunk : bytes) (st : state)
        (line uid : str) (img : image) (e : exn) :
  autodetect_port PORT w = Ok port ->
  serial_open w port = None ->
  loop w before (open_port port (logging INFO (greeting port) initial))
    = (None, st, []) ->
  frame (buf st) chunk = ([], Some (Ok line)) ->
  extract_uid line = Some uid ->
  compose_label w uid = Ok img ->
  image_save w (clock st)
             (label_name uid (strftime_compact (now w (clock st)))) img
    = Some e ->
  is_Exception e = true ->
  exists st',
    main PORT w (before ++ Data chunk :: after) = (SysExit 1, st', after)
    /\ exit_status (SysExit 1) = Some 1
    /\ files st' = files st
    /\ clock st' = S (clock st)
    /\ buf st' = []
    /\ log st' = log st ++ [(ERROR, lit "Erreur : " ++ exn_msg e)].
Proof.
  intros Hport Hopen Hbefore Hframe Huid Himg Hsave Hexc.
  eexists. unfold main. rewrite Hport, Hopen, loop_app, Hbefore.
  cbn [loop]. unfold loop_body. rewrite Hframe.
  unfold handle_line. rewrite Huid, Himg.
  cbn [clock set_buf]. rewrite Hsave.
  rewrite (handlers_Exception _ _ Hexc).
  repeat split.
Qed.

Lemma save_failure_exits_witness :
  exists st',
    main None world_disk_full
         ([Data (lit "junk" ++ [0x0D])]
            ++ Data (lit "noise/m/123456/end" ++ [0x0D])
            :: [Data (lit "/m/7654321/" ++ [0x0D])])
    = (SysExit 1, st', [Data (lit "/m/7654321/" ++ [0x0D])])
    /\ exit_status (SysExit 1) = Some 1
    /\ files st' = []
    /\ clock st' = 1%nat
    /\ buf st' = []
    /\ log st'
       = [(INFO, greeting (lit "COM4"))]
           ++ [(ERROR, lit "Erreur : " ++ lit "No space left on device: "
                         ++ label_name (lit "123456")
                              (strftime_compact
                                 (mk_datetime 2024 5 17 9 3 7)))].
Proof.
  apply (save_failure_exits None world_disk_full (lit "COM4")
           [Data (lit "junk" ++ [0x0D])]
           [Data (lit "/m/7654321/" ++ [0x0D])]
           (lit "noise/m/123456/end" ++ [0x0D])
           (mk_state [] [] [(INFO, greeting (lit "COM4"))] 0
                     (Some (lit "COM4")))
           (lit "noise/m/123456/end") (lit "123456")
           (get blank (compose_label world_disk_full (lit "123456")))
           (mk_exn OSError
                   (lit "No space left on device: "
                      ++ label_name (lit "123456")
                           (strftime_compact
                              (mk_datetime 2024 5 17 9 3 7)))));
    vm_compute; reflexivity.
Defined.
